(** * Political-Party-Elites: forum and election-roll scrapers, and their extractors

    A shallow embedding of the crawl controllers ([main_scraping.py], the
    scraper half of [parsing_pirate_votes.py]) and of the markup-to-record
    extraction rules ([parsing_pirate_posts.py], the converter half of
    [parsing_pirate_votes.py]), followed by the properties proved about them.

    Conventions.
    - A Python [str] is a list of Unicode code points ([list N]); literals are
      written as UTF-8 Rocq strings and decoded by [py].
    - A parsed document (the value of [BeautifulSoup(markup, parser)]) is a
      [node] tree; the parser itself is outside the development, so the
      extractors take the tree.
    - Network, clock and file effects are explicit: a [world] holds the
      answers the network will give and the log of what the program did. *)

From Stdlib Require Import List NArith ZArith Bool Lia Arith Sorted.
From Stdlib Require Ascii String DecimalNat.
Import ListNotations String.StringSyntax.
Delimit Scope string_scope with string.
Bind Scope string_scope with String.string.

#[local] Set Warnings "-register-all".

Set Implicit Arguments.

(* ================================================================== *)
(** ** Python strings *)
(* ================================================================== *)

Module Py.

Definition str := list N.

(** *** Literals: UTF-8 decoding, invalid input replaced by U+FFFD
    (one replacement per maximal invalid subpart, as CPython's
    [errors='replace'] does). *)

Fixpoint bytes_of (s : String.string) : list N :=
  match s with
  | String.EmptyString => []
  | String.String c r => Ascii.N_of_ascii c :: bytes_of r
  end.

Inductive u8state :=
| U8Idle
| U8Pending (need : nat) (acc lo hi : N).

Definition REPLACEMENT : N := 0xFFFD.

Definition between (lo hi c : N) : bool := (lo <=? c)%N && (c <=? hi)%N.

(** What a byte starts when no sequence is pending: a finished code point,
    a pending sequence, or an invalid lead. *)
Definition u8_lead (b : N) : option N * u8state :=
  if (b <? 0x80)%N then (Some b, U8Idle)
  else if between 0xC2 0xDF b then (None, U8Pending 1 (N.land b 0x1F) 0x80 0xBF)
  else if (b =? 0xE0)%N then (None, U8Pending 2 0 0xA0 0xBF)
  else if (b =? 0xED)%N then (None, U8Pending 2 0xD 0x80 0x9F)
  else if between 0xE1 0xEF b then (None, U8Pending 2 (N.land b 0x0F) 0x80 0xBF)
  else if (b =? 0xF0)%N then (None, U8Pending 3 0 0x90 0xBF)
  else if (b =? 0xF4)%N then (None, U8Pending 3 4 0x80 0x8F)
  else if between 0xF1 0xF3 b then (None, U8Pending 3 (N.land b 0x07) 0x80 0xBF)
  else (Some REPLACEMENT, U8Idle).

Fixpoint utf8_decode_from (st : u8state) (bs : list N) : str :=
  match bs with
  | [] => match st with U8Idle => [] | U8Pending _ _ _ _ => [REPLACEMENT] end
  | b :: r =>
      let fresh :=
        match u8_lead b with
        | (Some c, st') => c :: utf8_decode_from st' r
        | (None, st') => utf8_decode_from st' r
        end in
      match st with
      | U8Idle => fresh
      | U8Pending need acc lo hi =>
          if between lo hi b then
            let acc' := (acc * 64 + N.land b 0x3F)%N in
            match need with
            | S (S k) => utf8_decode_from (U8Pending (S k) acc' 0x80 0xBF) r
            | _ => acc' :: utf8_decode_from U8Idle r
            end
          else REPLACEMENT :: fresh
      end
  end.

Definition utf8_decode (bs : list N) : str := utf8_decode_from U8Idle bs.

Definition py (s : String.string) : str := utf8_decode (bytes_of s).
Arguments py s%_string.

(** *** Comparison, search *)

Fixpoint str_eqb (a b : str) : bool :=
  match a, b with
  | [], [] => true
  | x :: a', y :: b' => (x =? y)%N && str_eqb a' b'
  | _, _ => false
  end.

(** [s.startswith(p)] *)
Fixpoint startswith (p s : str) : bool :=
  match p, s with
  | [], _ => true
  | x :: p', y :: s' => (x =? y)%N && startswith p' s'
  | _ :: _, [] => false
  end.

(** [sub in s] *)
Fixpoint str_contains (sub s : str) : bool :=
  startswith sub s ||
  match s with
  | [] => false
  | _ :: t => str_contains sub t
  end.

(** [x in [a, b, ...]] for strings *)
Definition str_in (x : str) (l : list str) : bool := existsb (str_eqb x) l.

(** [s.partition(sep)] for a separator that occurs: the text before the
    first occurrence and the text after it; [None] when [sep] is absent. *)
Fixpoint str_partition (sep s : str) : option (str * str) :=
  if startswith sep s then Some ([], skipn (length sep) s)
  else match s with
       | [] => None
       | c :: t =>
           match str_partition sep t with
           | Some (a, b) => Some (c :: a, b)
           | None => None
           end
       end.

(** [s.split(sep)] for a non-empty separator, as the first piece and the
    later ones; [skip] counts the characters of a separator still to drop. *)
Fixpoint split_from (sep : str) (skip : nat) (s : str) : str * list str :=
  match s with
  | [] => ([], [])
  | c :: t =>
      match skip with
      | S k => split_from sep k t
      | O =>
          if startswith sep s
          then ([], let (p, ps) := split_from sep (length sep - 1) t in p :: ps)
          else let (p, ps) := split_from sep 0 t in (c :: p, ps)
      end
  end.

Definition str_split (sep s : str) : list str :=
  let (p, ps) := split_from sep 0 s in p :: ps.

(** [sep.join(l)] *)
Fixpoint str_join (sep : str) (l : list str) : str :=
  match l with
  | [] => []
  | [x] => x
  | x :: r => x ++ sep ++ str_join sep r
  end.

(** [s.replace(old, new)] for a non-empty [old]. *)
Fixpoint replace_from (old new : str) (skip : nat) (s : str) : str :=
  match s with
  | [] => []
  | c :: t =>
      match skip with
      | S k => replace_from old new k t
      | O =>
          if startswith old s
          then new ++ replace_from old new (length old - 1) t
          else c :: replace_from old new 0 t
      end
  end.

Definition str_replace (old new s : str) : str := replace_from old new 0 s.

(** [s.removeprefix(p)] *)
Definition removeprefix (p s : str) : str :=
  if startswith p s then skipn (length p) s else s.

(** *** Whitespace: [str.isspace], [str.strip()] and the regex class [\s]
    agree on this set. *)
Definition is_space (c : N) : bool :=
  between 0x09 0x0D c || between 0x1C 0x20 c || (c =? 0x85)%N || (c =? 0xA0)%N
  || (c =? 0x1680)%N || between 0x2000 0x200A c || (c =? 0x2028)%N
  || (c =? 0x2029)%N || (c =? 0x202F)%N || (c =? 0x205F)%N || (c =? 0x3000)%N.

Fixpoint lstrip_by (drop : N -> bool) (s : str) : str :=
  match s with
  | [] => []
  | c :: t => if drop c then lstrip_by drop t else s
  end.

Definition rstrip_by (drop : N -> bool) (s : str) : str :=
  rev (lstrip_by drop (rev s)).

Definition str_strip (s : str) : str := rstrip_by is_space (lstrip_by is_space s).

(** [re.sub(r'\s+', ' ', s)]: every run of whitespace becomes one space. *)
Fixpoint collapse_ws (in_run : bool) (s : str) : str :=
  match s with
  | [] => []
  | c :: t =>
      if is_space c
      then (if in_run then collapse_ws true t else 32%N :: collapse_ws true t)
      else c :: collapse_ws false t
  end.

(** The runs of non-whitespace characters ([re.findall(r'\S+', s)]): the run
    at the head of [s], possibly empty, and the later ones. *)
Fixpoint ws_runs (s : str) : str * list str :=
  match s with
  | [] => ([], [])
  | c :: t =>
      let (p, ps) := ws_runs t in
      if is_space c
      then ([], match p with [] => ps | _ => p :: ps end)
      else (c :: p, ps)
  end.

Definition split_ws (s : str) : list str :=
  let (p, ps) := ws_runs s in
  match p with [] => ps | _ => p :: ps end.

(** *** Decimal digits: the regex class [\d] and [int()] accept every
    character of category Nd; the blocks of ten are listed by their zero
    (Unicode 15.0). *)
Definition decimal_zeros : list N :=
  [ 0x30; 0x660; 0x6F0; 0x7C0; 0x966; 0x9E6; 0xA66; 0xAE6; 0xB66; 0xBE6;
    0xC66; 0xCE6; 0xD66; 0xDE6; 0xE50; 0xED0; 0xF20; 0x1040; 0x1090; 0x17E0;
    0x1810; 0x1946; 0x19D0; 0x1A80; 0x1A90; 0x1B50; 0x1BB0; 0x1C40; 0x1C50;
    0xA620; 0xA8D0; 0xA900; 0xA9D0; 0xA9F0; 0xAA50; 0xABF0; 0xFF10; 0x104A0;
    0x10D30; 0x11066; 0x110F0; 0x11136; 0x111D0; 0x112F0; 0x11450; 0x114D0;
    0x11650; 0x116C0; 0x11730; 0x118E0; 0x11950; 0x11C50; 0x11D50; 0x11DA0;
    0x11F50; 0x16A60; 0x16AC0; 0x16B50; 0x1D7CE; 0x1D7D8; 0x1D7E2; 0x1D7EC;
    0x1D7F6; 0x1E140; 0x1E2F0; 0x1E4F0; 0x1E950; 0x1FBF0 ]%N.

Definition digit_value (c : N) : option N :=
  match find (fun z => between z (z + 9) c) decimal_zeros with
  | Some z => Some (c - z)%N
  | None => None
  end.

Definition is_digit (c : N) : bool :=
  match digit_value c with Some _ => true | None => false end.

(** The longest run of digits at the head of [s]. *)
Fixpoint take_digits (s : str) : str :=
  match s with
  | [] => []
  | c :: t => if is_digit c then c :: take_digits t else []
  end.

(** [int(s)] for a string of digits (no sign, no blanks). *)
Definition int_of_digits (s : str) : Z :=
  fold_left
    (fun (acc : Z) c => match digit_value c with
                        | Some d => (acc * 10 + Z.of_N d)%Z
                        | None => acc
                        end)
    s 0%Z.

(** [str(n)] *)
Fixpoint digits_of_uint (d : Decimal.uint) : str :=
  match d with
  | Decimal.Nil => []
  | Decimal.D0 r => 48%N :: digits_of_uint r
  | Decimal.D1 r => 49%N :: digits_of_uint r
  | Decimal.D2 r => 50%N :: digits_of_uint r
  | Decimal.D3 r => 51%N :: digits_of_uint r
  | Decimal.D4 r => 52%N :: digits_of_uint r
  | Decimal.D5 r => 53%N :: digits_of_uint r
  | Decimal.D6 r => 54%N :: digits_of_uint r
  | Decimal.D7 r => 55%N :: digits_of_uint r
  | Decimal.D8 r => 56%N :: digits_of_uint r
  | Decimal.D9 r => 57%N :: digits_of_uint r
  end.

Definition str_of_nat (n : nat) : str := digits_of_uint (Nat.to_uint n).

(** *** Regular expressions of the shape [lit(\d+)] *)

(** A match of [lit\d+] at the head of [s]: the digits it captures. *)
Definition match_lit_digits (lit s : str) : option str :=
  if startswith lit s
  then match take_digits (skipn (length lit) s) with
       | [] => None
       | ds => Some ds
       end
  else None.

(** [re.search(lit + r'(\d+)', s)]: group 1 of the leftmost match. *)
Fixpoint re_search_lit_digits (lit s : str) : option str :=
  match match_lit_digits lit s with
  | Some ds => Some ds
  | None => match s with
            | [] => None
            | _ :: t => re_search_lit_digits lit t
            end
  end.

(** [re.sub(lit + r'\d+', repl, s)]: every match, left to right, replaced. *)
Fixpoint re_sub_from (lit repl : str) (skip : nat) (s : str) : str :=
  match s with
  | [] => []
  | c :: t =>
      match skip with
      | S k => re_sub_from lit repl k t
      | O =>
          match match_lit_digits lit s with
          | Some ds => repl ++ re_sub_from lit repl (length lit + length ds - 1) t
          | None => c :: re_sub_from lit repl 0 t
          end
      end
  end.

Definition re_sub_lit_digits (lit repl s : str) : str := re_sub_from lit repl 0 s.

(** *** [str.lower()]: the case pairs of Basic Latin, Latin-1 Supplement and
    Latin Extended-A, which cover the forum's two locales (English and
    Czech); code points beyond U+017F are left as they are. *)
Definition lower_cp (c : N) : list N :=
  if between 0x41 0x5A c then [c + 32]%N
  else if between 0xC0 0xDE c && negb (c =? 0xD7)%N then [c + 32]%N
  else if (c =? 0x130)%N then [0x69; 0x307]%N
  else if between 0x100 0x137 c && N.even c then [c + 1]%N
  else if between 0x139 0x148 c && N.odd c then [c + 1]%N
  else if between 0x14A 0x177 c && N.even c then [c + 1]%N
  else if (c =? 0x178)%N then [0xFF]%N
  else if between 0x179 0x17E c && N.odd c then [c + 1]%N
  else [c].

Definition str_lower (s : str) : str := flat_map lower_cp s.

(** *** Views used to state the properties of the cleaned text *)

(** Every whitespace character of [s] is a space that stands alone
    ([in_run]: the character before [s] is a space). *)
Fixpoint single_spaced (in_run : bool) (s : str) : bool :=
  match s with
  | [] => true
  | c :: t =>
      if is_space c then (c =? 32)%N && negb in_run && single_spaced true t
      else single_spaced false t
  end.

(** [s] neither starts nor ends with whitespace. *)
Definition trimmed (s : str) : Prop :=
  match s with [] => True | c :: _ => is_space c = false end /\
  match rev s with [] => True | c :: _ => is_space c = false end.

(** *** File names *)

(** The fixed parts of the names the scripts write and look for. *)
Definition XML_EXT : str := Eval vm_compute in py ".xml".
Definition XLSX_EXT : str := Eval vm_compute in py ".xlsx".
Definition TOPIC_PREFIX : str := Eval vm_compute in py "topic_".
Definition PARSED_SUFFIX : str := Eval vm_compute in py "_parsed.xlsx".
Definition ELECTION_PREFIX : str := Eval vm_compute in py "election_".
Definition PAGE_MARK : str := Eval vm_compute in py "_page_".
Definition DASH : str := Eval vm_compute in py "-".
Definition UNDERSCORE : str := Eval vm_compute in py "_".

(** [s.endswith(p)] *)
Definition endswith (p s : str) : bool := startswith (rev p) (rev s).

(** [s.rfind('.')] as a cut: the text before the last dot of [s] and the
    text from that dot on; [None] when [s] has no dot. *)
Fixpoint rsplit_dot (s : str) : option (str * str) :=
  match s with
  | [] => None
  | c :: t =>
      match rsplit_dot t with
      | Some (root, ext) => Some (c :: root, ext)
      | None => if (c =? 0x2E)%N then Some ([], s) else None
      end
  end.

(** [os.path.splitext(p)[0]] for a name without a separator: the name up
    to its last dot, unless only dots come before that dot. *)
Definition splitext_root (p : str) : str :=
  match rsplit_dot p with
  | Some (root, _) => if forallb (N.eqb 0x2E) root then p else root
  | None => p
  end.

(** [PurePath(name).stem]: the name up to its last dot, when that dot is
    neither the first nor the last character. *)
Definition path_stem (name : str) : str :=
  match rsplit_dot name with
  | Some (c :: root, _ :: _ :: _) => c :: root
  | _ => name
  end.

End Py.
Import Py.

(* ================================================================== *)
(** ** Exceptions *)
(* ================================================================== *)

Inductive exn :=
| RequestException   (* requests: connection errors, timeouts, HTTPError *)
| AttributeError
| IndexError
| ValueError.

Inductive res (A : Type) :=
| Ok (a : A)
| Raise (e : exn).
Arguments Ok {A} a.
Arguments Raise {A} e.

(* ================================================================== *)
(** ** Parsed documents and the BeautifulSoup queries the code uses *)
(* ================================================================== *)

Module Bs4.

Inductive node :=
| Text (s : str)                 (* a NavigableString *)
| Comment (s : str)              (* a comment, doctype, script or style
                                    string: left out by [get_text] *)
| Tag (name : str) (attrs : list (str * str)) (contents : list node).

(** [tag.descendants]: every node below [n], in document order. *)
Fixpoint descendants (n : node) : list node :=
  match n with
  | Tag _ _ cs =>
      (fix go (l : list node) : list node :=
         match l with
         | [] => []
         | c :: r => c :: descendants c ++ go r
         end) cs
  | _ => []
  end.

(** [tag.get(a)] *)
Fixpoint lookup_attr (a : str) (attrs : list (str * str)) : option str :=
  match attrs with
  | [] => None
  | (k, v) :: r => if str_eqb k a then Some v else lookup_attr a r
  end.

Definition get (a : str) (n : node) : option str :=
  match n with
  | Tag _ attrs _ => lookup_attr a attrs
  | _ => None
  end.

(** The attribute filters that occur in the code. *)
Inductive attr_filter :=
| AnyAttrs
| ClassIn (wanted : list str)    (* class_='x' and class_=['x', 'y'] *)
| HasAttr (a : str)              (* {a: True} *)
| AttrEq (a v : str).            (* a='v' on a single-valued attribute *)

(** [class] is a multi-valued attribute: a wanted value matches one of its
    tokens, or the tokens joined by single spaces. *)
Definition class_matches (wanted : list str) (n : node) : bool :=
  match get (py "class") n with
  | None => false
  | Some v =>
      let tokens := split_ws v in
      existsb (fun t => str_in t wanted) tokens
      || str_in (str_join (py " ") tokens) wanted
  end.

Definition attrs_match (f : attr_filter) (n : node) : bool :=
  match f with
  | AnyAttrs => true
  | ClassIn wanted => class_matches wanted n
  | HasAttr a => match get a n with Some _ => true | None => false end
  | AttrEq a v => match get a n with Some x => str_eqb x v | None => false end
  end.

Definition tag_matches (name : str) (f : attr_filter) (n : node) : bool :=
  match n with
  | Tag nm _ _ => str_eqb nm name && attrs_match f n
  | _ => false
  end.

(** [tag.find_all(name, ...)] and [tag.find(name, ...)] *)
Definition find_all (name : str) (f : attr_filter) (n : node) : list node :=
  filter (tag_matches name f) (descendants n).

Definition find (name : str) (f : attr_filter) (n : node) : option node :=
  hd_error (find_all name f n).

(** The strings [get_text] sees below a tag (of a string: itself). *)
Definition own_text (n : node) : list str :=
  match n with Text s => [s] | _ => [] end.

Definition strings (n : node) : list str :=
  match n with
  | Tag _ _ _ => flat_map own_text (descendants n)
  | _ => own_text n
  end.

(** [tag.get_text()] *)
Definition get_text (n : node) : str := concat (strings n).

(** [tag.get_text(strip=True)]: every string stripped, empty ones dropped. *)
Definition get_text_strip (n : node) : str :=
  concat (filter (fun s => negb (str_eqb s [])) (map str_strip (strings n))).

End Bs4.
Import Bs4.

(* ================================================================== *)
(** ** Vote-table extraction (parsing_pirate_votes.py, converter half) *)
(* ================================================================== *)

Module Votes.

Definition EM_DASH : str := Eval vm_compute in py "—".
Definition MDASH_ENTITY : str := Eval vm_compute in py "&mdash;".

Record vote_record := { vr_title : str; vr_name : str; vr_vote : Z }.

(** [vote = 0 if vote_raw in ["—", "&mdash;", ""] else 1] *)
Definition vote_of (vote_raw : str) : Z :=
  if str_in vote_raw [EM_DASH; MDASH_ENTITY; []] then 0%Z else 1%Z.

(** One turn of the loop over the rows: [None] is the [continue]. *)
Definition row_record (title : str) (row : node) : option vote_record :=
  match find_all (py "td") AnyAttrs row with
  | c0 :: c1 :: _ =>
      let name := get_text_strip c0 in
      let vote_raw := get_text_strip c1 in
      Some {| vr_title := title; vr_name := name; vr_vote := vote_of vote_raw |}
  | _ => None
  end.

Fixpoint rows_data (title : str) (rows : list node) : list vote_record :=
  match rows with
  | [] => []
  | row :: r =>
      match row_record title row with
      | Some d => d :: rows_data title r
      | None => rows_data title r
      end
  end.

Definition page_title (soup : node) : str :=
  match find (py "h3") (ClassIn [py "title"]) soup with
  | Some title_tag =>
      let raw_title := get_text_strip title_tag in
      str_strip (hd [] (str_split EM_DASH raw_title))
  | None => py "Unknown"
  end.

(** The body of the loop over the files, from the parsed document to the
    rows handed to [pd.DataFrame]. [table.find_all] on a missing table is an
    [AttributeError] on [None], which nothing catches. *)
Definition extract_votes (soup : node) : res (list vote_record) :=
  let title := page_title soup in
  match find (py "table") (ClassIn [py "pretty"]) soup with
  | None => Raise AttributeError
  | Some table =>
      let rows := tl (find_all (py "tr") AnyAttrs table) in
      Ok (rows_data title rows)
  end.



(** [out_file = output_dir / f"{file.stem}.xlsx"]: the name of the sheet
    written for the page file [name]. *)
Definition out_file_name (name : str) : str := path_stem name ++ XLSX_EXT.

End Votes.
Import Votes.

(* ================================================================== *)
(** ** urllib.parse: [urlparse] and [parse_qs] (CPython 3.12) *)
(* ================================================================== *)

Module Url.

Definition is_c0_or_space (c : N) : bool := (c <=? 0x20)%N.
Definition is_tab_or_newline (c : N) : bool :=
  (c =? 0x09)%N || (c =? 0x0A)%N || (c =? 0x0D)%N.
Definition is_ascii_alpha (c : N) : bool := between 0x41 0x5A c || between 0x61 0x7A c.
Definition is_scheme_char (c : N) : bool :=
  is_ascii_alpha c || between 0x30 0x39 c
  || (c =? 0x2B)%N || (c =? 0x2D)%N || (c =? 0x2E)%N.

Definition COLON : str := [0x3A]%N.
Definition SLASH : str := [0x2F]%N.
Definition QMARK : str := [0x3F]%N.
Definition HASH : str := [0x23]%N.
Definition AMP : str := [0x26]%N.
Definition EQUALS : str := [0x3D]%N.
Definition SEMICOLON : str := [0x3B]%N.

Record SplitResult := {
  sr_scheme : str; sr_netloc : str; sr_path : str; sr_query : str; sr_fragment : str
}.

Record ParseResult := {
  scheme : str; netloc : str; path : str; params : str; query : str; fragment : str
}.

(** The scheme, when the text before the first [':'] is one. *)
Definition split_scheme (url : str) : str * str :=
  match url, str_partition COLON url with
  | c0 :: _, Some (c :: pre, rest) =>
      if is_ascii_alpha c0 && forallb is_scheme_char (c :: pre)
      then (str_lower (c :: pre), rest)
      else ([], url)
  | _, _ => ([], url)
  end.

(** [_splitnetloc]: the text up to the first of ['/'], ['?'], ['#']. *)
Fixpoint span_until (stop : N -> bool) (s : str) : str * str :=
  match s with
  | [] => ([], [])
  | c :: t =>
      if stop c then ([], s)
      else let (a, b) := span_until stop t in (c :: a, b)
  end.

Definition is_netloc_end (c : N) : bool :=
  (c =? 0x2F)%N || (c =? 0x3F)%N || (c =? 0x23)%N.

Definition has_char (c : N) (s : str) : bool := existsb (N.eqb c) s.

(** [if url[:2] == '//': netloc, url = _splitnetloc(url, 2)] *)
Definition split_netloc (url : str) : str * str :=
  match url with
  | c1 :: c2 :: rest =>
      if (c1 =? 0x2F)%N && (c2 =? 0x2F)%N then span_until is_netloc_end rest
      else ([], url)
  | _ => ([], url)
  end.

(** [urlsplit]. It raises [ValueError] on a host with one bracket and not the
    other. Two more checks of the library, which can only raise, are not
    part of the model: the validation of a bracketed IPv6 literal and the
    NFKC check of a non-ASCII host. *)
Definition urlsplit (url0 : str) : res SplitResult :=
  let url := lstrip_by is_c0_or_space url0 in
  let url := filter (fun c => negb (is_tab_or_newline c)) url in
  let (scheme, url) := split_scheme url in
  let (netloc, url) := split_netloc url in
  if xorb (has_char 0x5B netloc) (has_char 0x5D netloc)
  then Raise ValueError
  else
    let (url, fragment) :=
      match str_partition HASH url with
      | Some (a, b) => (a, b)
      | None => (url, [])
      end in
    let (url, query) :=
      match str_partition QMARK url with
      | Some (a, b) => (a, b)
      | None => (url, [])
      end in
    Ok {| sr_scheme := scheme; sr_netloc := netloc; sr_path := url;
          sr_query := query; sr_fragment := fragment |}.

Definition uses_params : list str :=
  map py [ ""; "ftp"; "hdl"; "prospero"; "http"; "imap"; "https"; "shttp";
           "rtsp"; "rtspu"; "sip"; "sips"; "mms"; "sftp"; "tel" ]%string.

(** [_splitparams]: split at the first [';'] of the last path segment. *)
Fixpoint splitparams (url : str) : str * str :=
  match url with
  | [] => ([], [])
  | c :: t =>
      if (c =? 0x3B)%N && negb (has_char 0x2F t) then ([], t)
      else let (p, q) := splitparams t in (c :: p, q)
  end.

Definition urlparse (url : str) : res ParseResult :=
  match urlsplit url with
  | Raise e => Raise e
  | Ok r =>
      let (url, params) :=
        if str_in (sr_scheme r) uses_params && has_char 0x3B (sr_path r)
        then splitparams (sr_path r)
        else (sr_path r, []) in
      Ok {| scheme := sr_scheme r; netloc := sr_netloc r; path := url;
            params := params; query := sr_query r; fragment := sr_fragment r |}
  end.

(** *** [unquote] *)

Definition hex_value (c : N) : option N :=
  if between 0x30 0x39 c then Some (c - 0x30)%N
  else if between 0x41 0x46 c then Some (c - 0x41 + 10)%N
  else if between 0x61 0x66 c then Some (c - 0x61 + 10)%N
  else None.

(** [_unquote_impl]: [%XX] becomes the byte, any other ['%'] stays. *)
Fixpoint unquote_bytes (s : list N) : list N :=
  match s with
  | [] => []
  | c :: t =>
      if (c =? 0x25)%N then
        match t with
        | h1 :: h2 :: t' =>
            match hex_value h1, hex_value h2 with
            | Some a, Some b => (16 * a + b)%N :: unquote_bytes t'
            | _, _ => c :: unquote_bytes t
            end
        | _ => c :: unquote_bytes t
        end
      else c :: unquote_bytes t
  end.

Definition unquote_run (run : str) : str := utf8_decode (unquote_bytes run).

(** Runs of ASCII characters are unquoted and decoded as UTF-8; the other
    characters pass. The result is the ASCII run at the head, not yet
    decoded, and the text after it. *)
Fixpoint unquote_parts (s : str) : str * str :=
  match s with
  | [] => ([], [])
  | c :: t =>
      let (run, out) := unquote_parts t in
      if (c <? 0x80)%N then (c :: run, out)
      else ([], c :: unquote_run run ++ out)
  end.

Definition unquote (s : str) : str :=
  if negb (has_char 0x25 s) then s
  else let (run, out) := unquote_parts s in unquote_run run ++ out.

(** *** [parse_qsl] and [parse_qs] with their defaults: fields separated by
    ['&'], blank values dropped, ['+'] read as a space. *)

Definition plus_to_space (s : str) : str := str_replace [0x2B]%N [0x20]%N s.

Definition parse_field (name_value : str) : list (str * str) :=
  match name_value with
  | [] => []
  | _ =>
      match str_partition EQUALS name_value with
      | None => []
      | Some (_, []) => []
      | Some (n, v) => [(unquote (plus_to_space n), unquote (plus_to_space v))]
      end
  end.

Definition parse_qsl (qs : str) : list (str * str) :=
  flat_map parse_field (str_split AMP qs).

(** The dictionary [parse_qs] returns: each name with its values, in order
    of appearance. *)
Definition qs_dict := list (str * list str).

Fixpoint qs_add (name value : str) (d : qs_dict) : qs_dict :=
  match d with
  | [] => [(name, [value])]
  | (k, vs) :: r =>
      if str_eqb k name then (k, vs ++ [value]) :: r
      else (k, vs) :: qs_add name value r
  end.

Definition parse_qs (qs : str) : qs_dict :=
  fold_left (fun d nv => qs_add (fst nv) (snd nv) d) (parse_qsl qs) [].

(** [d.get(name)] *)
Fixpoint qs_get (name : str) (d : qs_dict) : option (list str) :=
  match d with
  | [] => None
  | (k, vs) :: r => if str_eqb k name then Some vs else qs_get name r
  end.

(** *** Views used to state the properties: a URL written as a base, a
    query of [name=value] fields joined by ['&'], and a fragment *)










End Url.
Import Url.

(* ================================================================== *)
(** ** The outside world: network, clock, files *)
(* ================================================================== *)

Module Net.

(** A [requests.Response]: status, body, final URL, and the body as
    [BeautifulSoup(response.text, 'html.parser')] reads it. *)
Record response := {
  status_code : Z;
  text : str;
  resp_url : str;
  resp_soup : node
}.

(** A POST goes to [urljoin(base, action)]; the request keeps the two
    arguments of [urljoin], whose resolution is outside the model. *)
Inductive request :=
| GET (url : str)
| POST (base : str) (action : option str) (data : list (str * str)).

Inductive outcome :=
| Answer (r : response)
| NetworkError.                       (* connection error, timeout, ... *)

Inductive event :=
| Sent (r : request)
| Wrote (output_dir filename content : str)
| WroteSummary (output_dir : str) (files : list (str * str))
| Slept (seconds : nat).

(** [net n r] is what the network answers to request [r] when it is the
    [n]-th request of the run: any server, with any state of its own, is
    such a function. [now] is the clock in seconds. *)
Record world := {
  net : nat -> request -> outcome;
  sent : nat;
  now : nat;
  log : list event
}.

Definition M (A : Type) : Type := world -> res A * world.

Definition ret {A} (a : A) : M A := fun w => (Ok a, w).

Definition bind {A B} (m : M A) (k : A -> M B) : M B :=
  fun w =>
    match m w with
    | (Ok a, w') => k a w'
    | (Raise e, w') => (Raise e, w')
    end.

Definition raise {A} (e : exn) : M A := fun w => (Raise e, w).

(** [try: m except: h] *)
Definition try_except {A} (m : M A) (h : exn -> M A) : M A :=
  fun w =>
    match m w with
    | (Ok a, w') => (Ok a, w')
    | (Raise e, w') => h e w'
    end.

Definition lift {A} (r : res A) : M A := fun w => (r, w).

Definition emit (e : event) : M unit :=
  fun w => (Ok tt, {| net := net w; sent := sent w; now := now w;
                      log := log w ++ [e] |}).

(** The world once request [r] has left. *)
Definition after_send (r : request) (w : world) : world :=
  {| net := net w; sent := S (sent w); now := now w; log := log w ++ [Sent r] |}.

Definition send (r : request) : M response :=
  fun w =>
    match net w (sent w) r with
    | Answer a => (Ok a, after_send r w)
    | NetworkError => (Raise RequestException, after_send r w)
    end.

(** [session.get(url)] *)
Definition session_get (url : str) : M response := send (GET url).

(** [session.post(urljoin(base, action), data=data, allow_redirects=True)] *)
Definition session_post (base : str) (action : option str)
  (data : list (str * str)) : M response := send (POST base action data).

(** [response.raise_for_status()]: an [HTTPError] on a 4xx or 5xx status. *)
Definition http_error (r : response) : bool :=
  (400 <=? status_code r)%Z && (status_code r <? 600)%Z.

Definition raise_for_status (r : response) : M unit :=
  if http_error r then raise RequestException else ret tt.

(** [time.sleep(seconds)] *)
Definition sleep (seconds : nat) : M unit :=
  fun w => (Ok tt, {| net := net w; sent := sent w; now := now w + seconds;
                      log := log w ++ [Slept seconds] |}).

(** [time.strftime(...)]: the reading of the clock. *)
Definition strftime : M nat := fun w => (Ok (now w), w).

(** Writing a page into [output_dir]; the path is [os.path.join(output_dir,
    filename)], kept as its two parts. File errors are not modelled. *)
Definition write_file (output_dir filename content : str) : M (str * str) :=
  bind (emit (Wrote output_dir filename content))
       (fun _ => ret (output_dir, filename)).

(** The requests of a log, in order. *)
Fixpoint requests (l : list event) : list request :=
  match l with
  | [] => []
  | Sent r :: t => r :: requests t
  | _ :: t => requests t
  end.

(** The pages written, in order: directory and file name. *)
Fixpoint written (l : list event) : list (str * str) :=
  match l with
  | [] => []
  | Wrote d f _ :: t => (d, f) :: written t
  | _ :: t => written t
  end.



End Net.
Import Net.

Notation "x <- c1 ;; c2" := (bind c1 (fun x => c2))
  (at level 61, c1 at next level, right associativity).
Notation "c1 ;; c2" := (bind c1 (fun _ => c2))
  (at level 61, right associativity).

(** Lines of a links file that are kept: stripped, not empty, no comment.
    Both scrapers read their list this way. *)
Definition is_link_line (line : str) : bool :=
  match line with
  | [] => false
  | _ => negb (startswith [0x23]%N line)
  end.

(* ================================================================== *)
(** ** HeliosScraper (parsing_pirate_votes.py, scraper half) *)
(* ================================================================== *)

Module Helios.

(** [SCRAPER_SETTINGS] *)
Definition delay_between_requests : nat := 2.
Definition output_directory : str := Eval vm_compute in py "data HELIOS".

Record page_data := {
  election_id : str;
  page : str;
  url : str;
  raw_html : str;
  scraped_at : nat;
  pd_status_code : Z;
  content_length : nat
}.

(** [links]: the lines of the file, [None] when the file does not exist. *)
Definition read_links_from_file (links : option (list str)) : list str :=
  match links with
  | None => []
  | Some lines => filter is_link_line (map str_strip lines)
  end.

(** [parts[3]] is an [IndexError] on a short path; the bare [except] turns
    every error into [(None, None)]. *)
Definition extract_election_info_from_url (url : str) : option (str * str) :=
  match urlparse url with
  | Raise _ => None
  | Ok parsed =>
      let parts := str_split SLASH (path parsed) in
      match nth_error parts 3 with
      | None => None
      | Some election_id =>
          let query := parse_qs (query parsed) in
          let page :=
            match qs_get (py "page") query with
            | Some (v :: _) => v
            | _ => py "1"
            end in
          Some (election_id, page)
      end
  end.

Definition scrape_url (url : str) : M (option page_data) :=
  match extract_election_info_from_url url with
  | None => ret None
  | Some ([], _) => ret None                     (* [if not election_id] *)
  | Some (election_id, page) =>
      r <- try_except
             (r <- session_get url ;;
              if negb (status_code r =? 200)%Z then ret None else ret (Some r))
             (fun _ => ret None) ;;
      match r with
      | None => ret None
      | Some r =>
          scraped_at <- strftime ;;
          ret (Some {| election_id := election_id; page := page; url := url;
                       raw_html := text r; scraped_at := scraped_at;
                       pd_status_code := status_code r;
                       content_length := length (text r) |})
      end
  end.

Definition page_filename (d : page_data) : str :=
  py "election_" ++ election_id d ++ py "_page_" ++ page d ++ py ".xml".

Definition save_page_as_xml (d : page_data) (output_dir : str) : M (str * str) :=
  write_file output_dir (page_filename d) (raw_html d).

Definition save_summary_xml (scraped_files : list ((str * str) * page_data))
  (output_dir : str) : M unit :=
  emit (WroteSummary output_dir (map fst scraped_files)).

(** The URL of page [page_num]: [page=] rewritten where the base URL has it,
    appended otherwise. *)
Definition page_url (base_url : str) (page_num : nat) : str :=
  if str_contains (py "page=") base_url
  then re_sub_lit_digits (py "page=") (py "page=" ++ str_of_nat page_num) base_url
  else
    let join_char := if str_contains QMARK base_url then AMP else QMARK in
    base_url ++ join_char ++ py "page=" ++ str_of_nat page_num.

(** [if not data or data["content_length"] < 500] *)
Definition no_more_pages (data : option page_data) : bool :=
  match data with
  | None => true
  | Some d => content_length d <? 500
  end.

(** The inner loop of [run] over the page numbers still to come. *)
Fixpoint pages_loop (output_dir base_url : str) (page_nums : list nat)
  (scraped_files : list ((str * str) * page_data))
  : M (list ((str * str) * page_data)) :=
  match page_nums with
  | [] => ret scraped_files
  | page_num :: rest =>
      let url := page_url base_url page_num in
      data <- scrape_url url ;;
      if no_more_pages data then ret scraped_files                (* break *)
      else
        match data with
        | None => ret scraped_files
        | Some d =>
            filepath <- save_page_as_xml d output_dir ;;
            sleep delay_between_requests ;;
            pages_loop output_dir base_url rest (scraped_files ++ [(filepath, d)])
        end
  end.


(** [range(1, 26)] *)
Definition page_range : list nat := seq 1 25.

Fixpoint urls_loop (output_dir : str) (urls : list str)
  (scraped_files : list ((str * str) * page_data))
  : M (list ((str * str) * page_data)) :=
  match urls with
  | [] => ret scraped_files
  | base_url :: rest =>
      scraped_files <- pages_loop output_dir base_url page_range scraped_files ;;
      urls_loop output_dir rest scraped_files
  end.

Definition run (links : option (list str)) : M unit :=
  let output_dir := output_directory in
  match read_links_from_file links with
  | [] => ret tt
  | urls =>
      scraped_files <- urls_loop output_dir urls [] ;;
      match scraped_files with
      | [] => ret tt
      | _ => save_summary_xml scraped_files output_dir
      end
  end.

End Helios.

(* ================================================================== *)
(** ** PirateForumScraper (main_scraping.py) *)
(* ================================================================== *)

Module Forum.

(** [config.SCRAPER_SETTINGS] *)
Definition delay_between_requests : nat := 2.
Definition output_directory : str := Eval vm_compute in py "data".

Definition login_url : str :=
  Eval vm_compute in py "https://forum.pirati.cz/ucp.php?mode=login&redirect=index.php".
Definition test_url : str :=
  Eval vm_compute in py "https://forum.pirati.cz/viewtopic.php?t=47593".
Definition index_url : str :=
  Eval vm_compute in py "https://forum.pirati.cz/index.php".

(** The markers [login] looks for in a page. *)
Definition REGISTRATION_REQUIRED_EN : str :=
  Eval vm_compute in py "requires you to be registered and logged in".
Definition REGISTRATION_REQUIRED_CS : str :=
  Eval vm_compute in py "požaduje, abyste byli registrováni a přihlášeni".
Definition LOGOUT_EN : str := Eval vm_compute in py "Logout".
Definition LOGOUT_CS : str := Eval vm_compute in py "Odhlásit se".

Definition registration_required (page : str) : bool :=
  str_contains REGISTRATION_REQUIRED_EN page || str_contains REGISTRATION_REQUIRED_CS page.

Definition logout_present (page : str) : bool :=
  str_contains LOGOUT_EN page || str_contains LOGOUT_CS page.

(** [d[k] = v] on a dictionary of strings *)
Fixpoint form_put (k v : str) (d : list (str * str)) : list (str * str) :=
  match d with
  | [] => [(k, v)]
  | (k', v') :: r =>
      if str_eqb k' k then (k', v) :: r else (k', v') :: form_put k v r
  end.

(** The hidden inputs of the form that have a name, with their values. *)
Definition hidden_fields_of (login_form : node) : list (str * str) :=
  fold_left
    (fun hidden_fields input_tag =>
       match get (py "name") input_tag with
       | Some (c :: name) =>
           let value := match get (py "value") input_tag with
                        | Some v => v
                        | None => []
                        end in
           form_put (c :: name) value hidden_fields
       | _ => hidden_fields
       end)
    (find_all (py "input") (AttrEq (py "type") (py "hidden")) login_form) [].

(** [login_data = {'username': ..., 'password': ...}] updated with the
    hidden fields. *)
Definition login_data_of (username password : str)
  (hidden_fields : list (str * str)) : list (str * str) :=
  fold_left (fun d kv => form_put (fst kv) (snd kv) d) hidden_fields
            [(py "username", username); (py "password", password)].

(** A request and [raise_for_status], with [except RequestException]
    around the two: [None] is the handler's [return False]. *)
Definition guarded (m : M response) : M (option response) :=
  try_except
    (response <- m ;; raise_for_status response ;; ret (Some response))
    (fun e => match e with
              | RequestException => ret None
              | _ => raise e
              end).

Definition login (username password : str) : M bool :=
  (* Load login page *)
  loaded <- guarded (session_get login_url) ;;
  match loaded with
  | None => ret false
  | Some response =>
      let soup := resp_soup response in
      (* Find Keycloak login form *)
      match find (py "form") (AttrEq (py "id") (py "kc-form-login")) soup with
      | None => ret false
      | Some login_form =>
          let action := get (py "action") login_form in
          let hidden_fields := hidden_fields_of login_form in
          let login_data := login_data_of username password hidden_fields in
          (* Submit credentials to Keycloak *)
          submitted <- guarded (session_post (resp_url response) action login_data) ;;
          match submitted with
          | None => ret false
          | Some _ =>
              (* Test actual access to protected content *)
              test_response <- session_get test_url ;;
              if registration_required (text test_response) then ret false
              else if logout_present (text test_response) then ret true
              else
                (* Try main page *)
                main_response <- session_get index_url ;;
                if logout_present (text main_response) then ret true
                else ret false
          end
      end
  end.

(** [links]: the lines of the file, [None] when the file does not exist. *)
Definition looks_like_forum_url (line : str) : bool :=
  str_contains (py "forum.pirati.cz") line && str_contains (py "viewtopic.php") line.

Definition read_links_from_file (links : option (list str)) : list str :=
  match links with
  | None => []
  | Some lines =>
      filter (fun line => is_link_line line && looks_like_forum_url line)
             (map str_strip lines)
  end.

(** The first value of a query parameter: [query_params[name][0]]. *)
Definition first_value (name : str) (query_params : qs_dict) : res (option str) :=
  match qs_get name query_params with
  | None => Ok None
  | Some [] => Raise IndexError
  | Some (v :: _) => Ok (Some v)
  end.

Definition extract_topic_info_from_url (url : str) : res (option str * option str) :=
  match
    match urlparse url with
    | Raise e => Raise e
    | Ok parsed_url =>
        let query_params := parse_qs (query parsed_url) in
        match first_value (py "t") query_params with
        | Raise e => Raise e
        | Ok topic_id =>
            match first_value (py "start") query_params with
            | Raise e => Raise e
            | Ok None => Ok (topic_id, Some (py "0"))
            | Ok (Some start_value) => Ok (topic_id, Some start_value)
            end
        end
    end
  with
  | Ok r => Ok r
  | Raise _ => Ok (None, None)                  (* [except Exception] *)
  end.

(** The dictionary [scrape_url] returns, by its keys: ['id'], ['start'],
    ['url'], ['raw_html'], ['scraped_at'], ['status_code'],
    ['content_length']. *)
Record page_data := {
  pd_id : option str;
  pd_start : option str;
  pd_url : str;
  raw_html : str;
  scraped_at : nat;
  pd_status_code : Z;
  content_length : nat
}.

Definition error_indicators : list str :=
  Eval vm_compute in
  map py [ "this topic does not exist";
           "toto téma neexistuje";
           "topic not found";
           "téma nenalezeno";
           "page not found";
           "stránka nenalezena" ]%string.

Definition scrape_url (url : str) : M (option page_data) :=
  try_except
    (response <- session_get url ;;
     if negb (status_code response =? 200)%Z then ret None
     else if length (str_strip (text response)) <? 100 then ret None
     else
       let response_text_lower := str_lower (text response) in
       if existsb (fun indicator => str_contains indicator response_text_lower)
                  error_indicators
       then ret None
       else
         info <- lift (extract_topic_info_from_url url) ;;
         scraped_at <- strftime ;;
         ret (Some {| pd_id := fst info; pd_start := snd info; pd_url := url;
                      raw_html := text response; scraped_at := scraped_at;
                      pd_status_code := status_code response;
                      content_length := length (text response) |}))
    (fun _ => ret None).

(** *** Views used to state the properties *)




(** How an f-string renders a value that may be [None]. *)
Definition format_opt (o : option str) : str :=
  match o with
  | Some s => s
  | None => py "None"
  end.

Definition page_filename (d : page_data) : str :=
  py "topic_" ++ format_opt (pd_id d) ++ py "-" ++ format_opt (pd_start d) ++ py ".xml".

Definition save_page_as_html (d : page_data) (output_dir : str) : M (str * str) :=
  write_file output_dir (page_filename d) (raw_html d).

Definition save_summary_xml (scraped_files : list ((str * str) * page_data))
  (output_dir : str) : M unit :=
  emit (WroteSummary output_dir (map fst scraped_files)).

(** The loop of [run] over the URLs still to come. *)
Fixpoint urls_loop (output_dir : str) (urls : list str)
  (scraped_files : list ((str * str) * page_data))
  : M (list ((str * str) * page_data)) :=
  match urls with
  | [] => ret scraped_files
  | url :: rest =>
      page_data <- scrape_url url ;;
      scraped_files <-
        match page_data with
        | Some d =>
            filepath <- save_page_as_html d output_dir ;;
            ret (scraped_files ++ [(filepath, d)])
        | None => ret scraped_files
        end ;;
      (* Pause between requests *)
      sleep delay_between_requests ;;
      urls_loop output_dir rest scraped_files
  end.

(** [run] from "Read URLs from file" on. *)
Definition crawl (links : option (list str)) : M unit :=
  let output_dir := output_directory in
  match read_links_from_file links with
  | [] => ret tt
  | urls =>
      scraped_files <- urls_loop output_dir urls [] ;;
      match scraped_files with
      | [] => ret tt
      | _ => save_summary_xml scraped_files output_dir
      end
  end.

(** [run]: the login's answer only chooses a message. *)
Definition run (username password : str) (links : option (list str)) : M unit :=
  logged_in <- login username password ;;
  (if negb logged_in then ret tt (* "Continuing without login" *) else ret tt) ;;
  crawl links.

(** [main]: the credentials of the configuration, or those typed in when
    one of them is missing; [except Exception] around [run] ends the
    program quietly. *)
Definition main (config_username config_password typed_username typed_password : str)
  (links : option (list str)) : M unit :=
  let (username, password) :=
    match config_username, config_password with
    | _ :: _, _ :: _ => (config_username, config_password)
    | _, _ => (str_strip typed_username, str_strip typed_password)
    end in
  match username, password with
  | _ :: _, _ :: _ => try_except (run username password links) (fun _ => ret tt)
  | _, _ => ret tt
  end.

(** *** Views used to state the properties of the crawl and of the login *)






(** The login page and its form, when [login] gets as far as the form. *)
Definition login_form_of (w : world) : option (response * node) :=
  match net w (sent w) (GET login_url) with
  | Answer loaded =>
      if http_error loaded then None
      else match find (py "form") (AttrEq (py "id") (py "kc-form-login"))
                      (resp_soup loaded) with
           | Some login_form => Some (loaded, login_form)
           | None => None
           end
  | NetworkError => None
  end.

(** The request that submits the credentials. *)
Definition credentials_post (username password : str) (loaded : response)
  (login_form : node) : request :=
  POST (resp_url loaded) (get (py "action") login_form)
       (login_data_of username password (hidden_fields_of login_form)).

(** The handshake goes through: the login page answers with the form and
    the server accepts the submission. *)
Definition handshake_done (username password : str) (w : world) : bool :=
  match login_form_of w with
  | Some (loaded, login_form) =>
      match net w (S (sent w)) (credentials_post username password loaded login_form) with
      | Answer submitted => negb (http_error submitted)
      | NetworkError => false
      end
  | None => false
  end.

(** A verification request gets no answer: the one for the protected topic,
    or the one for the index page when the topic shows neither marker. *)
Definition verification_breaks (w : world) : bool :=
  match net w (S (S (sent w))) (GET test_url) with
  | NetworkError => true
  | Answer test_response =>
      negb (registration_required (text test_response))
      && negb (logout_present (text test_response))
      && match net w (S (S (S (sent w)))) (GET index_url) with
         | NetworkError => true
         | Answer _ => false
         end
  end.

(** [d.get(k)] on a dictionary of strings *)
Fixpoint form_get (k : str) (d : list (str * str)) : option str :=
  match d with
  | [] => None
  | (k', v) :: r => if str_eqb k' k then Some v else form_get k r
  end.

(** The value of the last hidden input of the form named [k]. *)
Definition hidden_value (k : str) (login_form : node) : option str :=
  fold_left
    (fun found input_tag =>
       match get (py "name") input_tag with
       | Some (c :: name) =>
           if str_eqb (c :: name) k
           then Some match get (py "value") input_tag with
                     | Some v => v
                     | None => []
                     end
           else found
       | _ => found
       end)
    (find_all (py "input") (AttrEq (py "type") (py "hidden")) login_form) None.

End Forum.

(* ================================================================== *)
(** ** ForumXMLParser (parsing_pirate_posts.py) *)
(* ================================================================== *)

Module ForumXMLParser.

(** The values a post dictionary holds. The timestamp is
    [parse_datetime(str(time_elem))]; its text plays no part below, so the
    value keeps the [<time>] element it is computed from. *)
Inductive value :=
| VStr (s : str)
| VInt (z : Z)
| VTime (time_elem : node).

(** A Python dictionary with literal keys, in insertion order. *)
Definition dict := list (String.string * value).

Fixpoint dict_get (k : String.string) (d : dict) : option value :=
  match d with
  | [] => None
  | (k', v) :: r => if String.eqb k' k then Some v else dict_get k r
  end.

Definition dict_has (k : String.string) (d : dict) : bool :=
  match dict_get k d with Some _ => true | None => false end.

(** [d[k] = v] *)
Fixpoint dict_set (k : String.string) (v : value) (d : dict) : dict :=
  match d with
  | [] => [(k, v)]
  | (k', v') :: r =>
      if String.eqb k' k then (k', v) :: r else (k', v') :: dict_set k v r
  end.

(** [{**d, **more}] *)
Definition dict_update (d more : dict) : dict :=
  fold_left (fun acc kv => dict_set (fst kv) (snd kv) acc) more d.

Definition clean_text (text : str) : str :=
  match text with
  | [] => []
  | _ => collapse_ws false (str_strip text)
  end.

(** [re.search(r'(\d+)', s).group(1) if re.search(r'(\d+)', s) else ''] *)
Definition first_number (s : str) : str :=
  match re_search_lit_digits [] s with
  | Some ds => ds
  | None => []
  end.

(** A labelled profile field: set only when the label is in the text. *)
Definition labelled_field (key : String.string) (label : str)
  (dd : option node) (user_info : dict) : dict :=
  match dd with
  | Some dd =>
      let field_text := get_text dd in
      if str_contains label field_text
      then dict_set key (VStr (clean_text (str_strip (str_replace label [] field_text))))
                    user_info
      else user_info
  | None => user_info
  end.

(** A thanks counter: the first number in the link of the counter. *)
Definition counter_field (key : String.string) (dd : option node)
  (user_info : dict) : dict :=
  match dd with
  | Some dd =>
      match find (py "a") AnyAttrs dd with
      | Some thanks_link => dict_set key (VStr (first_number (get_text thanks_link))) user_info
      | None => user_info
      end
  | None => user_info
  end.

Definition extract_user_info (post_div : node) : dict :=
  let user_info : dict := [] in
  match find (py "dl") (ClassIn [py "postprofile"]) post_div with
  | None => user_info
  | Some profile_div =>
      (* Username *)
      let username_link :=
        match find (py "a") (ClassIn [py "username-coloured"]) profile_div with
        | Some a => Some a
        | None => find (py "a") (ClassIn [py "username"]) profile_div
        end in
      let user_info :=
        match username_link with
        | Some username_link =>
            let href := match get (py "href") username_link with
                        | Some h => h
                        | None => []
                        end in
            let user_info :=
              dict_set "username" (VStr (clean_text (get_text username_link))) user_info in
            dict_set "user_id"
              (VStr (if str_contains (py "u=") href
                     then last (str_split (py "u=") href) []
                     else []))
              user_info
        | None => user_info
        end in
      (* Profile rank *)
      let user_info :=
        match find (py "dd") (ClassIn [py "profile-rank"]) profile_div with
        | Some rank_dd => dict_set "rank" (VStr (clean_text (get_text rank_dd))) user_info
        | None => user_info
        end in
      (* Post count *)
      let user_info :=
        match find (py "dd") (ClassIn [py "profile-posts"]) profile_div with
        | Some posts_dd =>
            match find (py "a") AnyAttrs posts_dd with
            | Some posts_link =>
                dict_set "post_count" (VStr (clean_text (get_text posts_link))) user_info
            | None => user_info
            end
        | None => user_info
        end in
      (* Registration date, profession, location *)
      let user_info :=
        labelled_field "registration_date" (py "Registrován:")
          (find (py "dd") (ClassIn [py "profile-joined"]) profile_div) user_info in
      let user_info :=
        labelled_field "profession" (py "Profese:")
          (find (py "dd") (ClassIn [py "profile-custom-field profile-profese"]) profile_div)
          user_info in
      let user_info :=
        labelled_field "location" (py "Bydliště:")
          (find (py "dd") (ClassIn [py "profile-custom-field profile-phpbb_location"])
                profile_div)
          user_info in
      (* Thanks given and received *)
      let user_info :=
        counter_field "thanks_given"
          (find (py "dd") (HasAttr (py "data-user-give-id")) profile_div) user_info in
      counter_field "thanks_received"
        (find (py "dd") (HasAttr (py "data-user-receive-id")) profile_div) user_info
  end.

Definition RE_PREFIX : str := Eval vm_compute in py "Re: ".
Definition THANKED_BY : str := Eval vm_compute in py "poděkovali autorovi".
Definition CELKEM : str := Eval vm_compute in py "celkem ".

(** The post title: the text of the first link of the first heading. *)
Definition title_link (postbody_div : node) : option node :=
  match find (py "h3") AnyAttrs postbody_div with
  | Some title_h3 => find (py "a") AnyAttrs title_h3
  | None => None
  end.

(** The [<dt>] of the thanks list, when the first [<dl>] of the post body
    is one: its first [<dt>] names the thankers. *)
Definition thanks_line (postbody_div : node) : option (node * node) :=
  match find (py "dl") AnyAttrs postbody_div with
  | Some thanks_dl =>
      match find (py "dt") AnyAttrs thanks_dl with
      | Some dt_elem =>
          if str_contains THANKED_BY (get_text dt_elem)
          then Some (thanks_dl, dt_elem)
          else None
      | None => None
      end
  | None => None
  end.

(** The names listed in the [<dd>] of the thanks list. *)
Definition thanks_names (dd_elem : node) : list str :=
  map (fun link => clean_text (get_text link))
      (find_all (py "a") (ClassIn [py "username-coloured"; py "username"]) dd_elem).

(** The blocks of [extract_post_content] that fill [post_data] from the
    post body, in the order of the source. *)

(* Post title *)
Definition set_title (postbody_div : node) (post_data : dict) : dict :=
  match title_link postbody_div with
  | Some title_link =>
      let raw_title := clean_text (get_text title_link) in
      dict_set "title" (VStr (removeprefix RE_PREFIX raw_title)) post_data
  | None => post_data
  end.

(* Post datetime *)
Definition set_datetime (postbody_div : node) (post_data : dict) : dict :=
  match find (py "p") (ClassIn [py "author"]) postbody_div with
  | Some author_p =>
      match find (py "time") AnyAttrs author_p with
      | Some time_elem => dict_set "datetime" (VTime time_elem) post_data
      | None => post_data
      end
  | None => post_data
  end.

(* Post content *)
Definition set_content (postbody_div : node) (post_data : dict) : dict :=
  match find (py "div") (ClassIn [py "content"]) postbody_div with
  | Some content_div =>
      dict_set "content" (VStr (clean_text (get_text content_div))) post_data
  | None => post_data
  end.

(* Thanks list *)
Definition set_thanks (postbody_div : node) (post_data : dict) : dict :=
  match thanks_line postbody_div with
  | Some (thanks_dl, dt_elem) =>
      let dt_text := get_text dt_elem in
      let post_data :=
        match re_search_lit_digits CELKEM dt_text with
        | Some count => dict_set "thanks_count" (VInt (int_of_digits count)) post_data
        | None => post_data
        end in
      match find (py "dd") AnyAttrs thanks_dl with
      | Some dd_elem =>
          let thanks_users := thanks_names dd_elem in
          let post_data :=
            dict_set "thanks_users" (VStr (str_join (py ", ") thanks_users)) post_data in
          if dict_has "thanks_count" post_data then post_data
          else dict_set "thanks_count" (VInt (Z.of_nat (length thanks_users))) post_data
      | None => post_data
      end
  | None => post_data
  end.

(** [if k not in post_data: post_data[k] = v] *)
Definition set_default (k : String.string) (v : value) (post_data : dict) : dict :=
  if dict_has k post_data then post_data else dict_set k v post_data.

Definition extract_post_content (post_div : node) : dict :=
  let post_data : dict := [] in
  (* Post ID *)
  let post_id :=
    match get (py "id") post_div with
    | Some (c :: i) => str_replace (py "p") [] (c :: i)
    | _ => []
    end in
  let post_data := dict_set "post_id" (VStr post_id) post_data in
  match find (py "div") (ClassIn [py "postbody"]) post_div with
  | None => post_data
  | Some postbody_div =>
      let post_data := set_title postbody_div post_data in
      let post_data := set_datetime postbody_div post_data in
      let post_data := set_content postbody_div post_data in
      let post_data := set_thanks postbody_div post_data in
      let post_data := set_default "thanks_users" (VStr []) post_data in
      set_default "thanks_count" (VInt 0) post_data
  end.

(** The body of the loop of [parse_forum_xml]: the record of one post,
    [{'forum_id': forum_id, **user_info, **post_content}]. The two
    extractors catch their own errors, so the loop's [try] never sees one. *)
Definition post_record (forum_id : str) (post_div : node) : dict :=
  let user_info := extract_user_info post_div in
  let post_content := extract_post_content post_div in
  dict_update (dict_update [("forum_id"%string, VStr forum_id)] user_info) post_content.

(** [soup] is [BeautifulSoup(xml_content, 'html.parser')]. *)
Definition parse_forum_xml (soup : node) (forum_id : str) : list dict :=
  let post_divs := find_all (py "div") (ClassIn [py "post"]) soup in
  map (post_record forum_id) post_divs.

(** *** The spreadsheet *)

(** A cell of a [DataFrame]: [None] is NaN, the cell of a record that has
    no such key. *)
Definition cell := option value.

(** A [DataFrame]: its columns, and each row as the cells by column. *)
Record DataFrame := {
  df_columns : list String.string;
  df_rows : list (list (String.string * cell))
}.

Definition has_column (c : String.string) (cols : list String.string) : bool :=
  existsb (String.eqb c) cols.

(** [pd.DataFrame(records)]: the columns are the keys in order of first
    appearance. *)
Definition add_column (cols : list String.string) (c : String.string) :=
  if has_column c cols then cols else cols ++ [c].

Definition columns_of (records : list dict) : list String.string :=
  fold_left (fun cols d => fold_left add_column (map fst d) cols) records [].

Definition DataFrame_of (records : list dict) : DataFrame :=
  let cols := columns_of records in
  {| df_columns := cols;
     df_rows := map (fun d => map (fun c => (c, dict_get c d)) cols) records |}.

Fixpoint row_cell (c : String.string) (row : list (String.string * cell)) : cell :=
  match row with
  | [] => None
  | (c', v) :: r => if String.eqb c' c then v else row_cell c r
  end.

(** [df[col] = v] for a column the frame does not have *)
Definition df_add (col : String.string) (v : value) (df : DataFrame) : DataFrame :=
  {| df_columns := df_columns df ++ [col];
     df_rows := map (fun row => row ++ [(col, Some v)]) (df_rows df) |}.

(** [df[columns]] *)
Definition df_select (cols : list String.string) (df : DataFrame) : DataFrame :=
  {| df_columns := cols;
     df_rows := map (fun row => map (fun c => (c, row_cell c row)) cols) (df_rows df) |}.

(** What [to_excel(index=False)] writes: the header, and the rows with NaN
    as the empty string ([na_rep='']). A number is written as a number,
    whether the column holds it as an integer or, beside a NaN, as a float. *)
Record sheet := {
  header : list String.string;
  body : list (list value)
}.

Definition to_excel (df : DataFrame) : sheet :=
  {| header := df_columns df;
     body := map (map (fun kv => match snd kv with
                                 | Some v => v
                                 | None => VStr []
                                 end))
                 (df_rows df) |}.

Definition columns : list String.string :=
  [ "forum_id"; "post_id"; "title"; "username"; "user_id"; "rank"; "post_count";
    "registration_date"; "profession"; "location"; "thanks_given";
    "thanks_received"; "datetime"; "content";
    "thanks_users"; "thanks_count" ]%string.

(** [if col not in df.columns: df[col] = ''] *)
Definition fill_missing (df : DataFrame) (col : String.string) : DataFrame :=
  if has_column col (df_columns df) then df else df_add col (VStr []) df.

(** The sheet written, [None] when there is nothing to write. *)
Definition create_xlsx_from_posts (posts_data : list dict) : option sheet :=
  match posts_data with
  | [] => None
  | _ =>
      let df := DataFrame_of posts_data in
      (* Reorder columns and fill missing ones *)
      let df := fold_left fill_missing columns df in
      let df := df_select columns df in
      Some (to_excel df)
  end.

(** *** Views used to state and prove the properties *)

Definition keys (d : dict) : list String.string := map fst d.



(** The keys [extract_user_info] and [extract_post_content] may set. *)
Definition user_keys : list String.string :=
  [ "username"; "user_id"; "rank"; "post_count"; "registration_date";
    "profession"; "location"; "thanks_given"; "thanks_received" ]%string.

Definition post_keys : list String.string :=
  [ "post_id"; "title"; "datetime"; "content"; "thanks_count"; "thanks_users" ]%string.

(** The link [extract_user_info] reads the author from. *)
Definition username_link_of (post_div : node) : option node :=
  match find (py "dl") (ClassIn [py "postprofile"]) post_div with
  | Some profile_div =>
      match find (py "a") (ClassIn [py "username-coloured"]) profile_div with
      | Some a => Some a
      | None => find (py "a") (ClassIn [py "username"]) profile_div
      end
  | None => None
  end.

(** A counter of the profile, where it is set, is a run of digits. *)
Definition numeric_counter (k : String.string) (d : dict) : Prop :=
  forall v, dict_get k d = Some v ->
            exists ds, v = VStr ds /\ forallb is_digit ds = true.
(** *** From a file of the input folder to the sheet written for it *)

(** [re.search(r'topic_(\d+)', filename)]: the first number after
    ['topic_'], the empty string when there is none. *)
Definition extract_forum_id_from_filename (filename : str) : str :=
  match re_search_lit_digits TOPIC_PREFIX filename with
  | Some forum_id => forum_id
  | None => []
  end.

(** The files [process_all_xml_files] keeps from the listing of the input
    folder: [f.lower().endswith('.xml')]. *)
Definition xml_files (listing : list str) : list str :=
  filter (fun f => endswith XML_EXT (str_lower f)) listing.

(** [process_xml_file] for the file [filename] of the input folder
    ([os.path.basename] of its path), whose content parses as [soup]: the
    name of the sheet written and the sheet, [None] when the file has no
    post. *)
Definition process_xml_file (filename : str) (soup : node) : option (str * sheet) :=
  let forum_id := extract_forum_id_from_filename filename in
  (* Parse the XML/HTML content *)
  let posts_data := parse_forum_xml soup forum_id in
  match posts_data with
  | [] => None
  | _ =>
      (* Generate output filename *)
      let base_name := splitext_root filename in
      let output_filename := base_name ++ PARSED_SUFFIX in
      match create_xlsx_from_posts posts_data with
      | Some written => Some (output_filename, written)
      | None => None
      end
  end.

End ForumXMLParser.

(* ================================================================== *)
(** ** The merge scripts (merge_parsed_files.py, merge_parsed_votes.py) *)
(* ================================================================== *)

(** What the two scripts share: a dictionary of lists filled in the order
    of the listing, and each list sorted by a number read from the name. *)
Module Merge.

(** [groups[k].append(name)] on a [defaultdict(list)], and
    [groups.setdefault(k, []).append(name)]: the keys in insertion order. *)
Fixpoint group_append (k name : str) (groups : list (str * list str))
  : list (str * list str) :=
  match groups with
  | [] => [(k, [name])]
  | (k', files) :: r =>
      if str_eqb k' k then (k', files ++ [name]) :: r
      else (k', files) :: group_append k name r
  end.

(** The loop over the names: [group_of] is group 1 of the pattern, [None]
    when the pattern does not match. *)
Definition group_files (group_of : str -> option str) (names : list str)
  : list (str * list str) :=
  fold_left
    (fun groups name =>
       match group_of name with
       | Some k => group_append k name groups
       | None => groups
       end)
    names [].

(** The keys of a sort, computed first and in order: the first that
    raises ends the sort. *)
Fixpoint keyed (key : str -> res Z) (files : list str) : res (list (Z * str)) :=
  match files with
  | [] => Ok []
  | f :: r =>
      match key f with
      | Raise e => Raise e
      | Ok k =>
          match keyed key r with
          | Raise e => Raise e
          | Ok l => Ok ((k, f) :: l)
          end
      end
  end.

(** A stable sort: each file goes behind the files whose key is not
    greater, those listed before it included. *)
Fixpoint insert_by (k : Z) (f : str) (l : list (Z * str)) : list (Z * str) :=
  match l with
  | [] => [(k, f)]
  | (k', f') :: r =>
      if (k' <=? k)%Z then (k', f') :: insert_by k f r else (k, f) :: l
  end.

Definition sort_by_key (l : list (Z * str)) : list (Z * str) :=
  fold_left (fun sorted kf => insert_by (fst kf) (snd kf) sorted) l [].

(** [sorted(files, key=key)], also [files.sort(key=key)] *)
Definition sorted_by (key : str -> res Z) (files : list str) : res (list str) :=
  match keyed key files with
  | Ok l => Ok (map snd (sort_by_key l))
  | Raise e => Raise e
  end.

(** The loop over the groups: for each one, the name of the file written
    and the files read for it, in the order they are read. An error of the
    sort is caught nowhere: the script stops, with the groups before it
    done. *)
Fixpoint merge_groups (key : str -> res Z) (out_name : str -> str)
  (groups : list (str * list str)) : list (str * list str) * option exn :=
  match groups with
  | [] => ([], None)
  | (k, files) :: r =>
      match sorted_by key files with
      | Raise e => ([], Some e)
      | Ok sorted =>
          let (done, err) := merge_groups key out_name r in
          ((out_name k, sorted) :: done, err)
      end
  end.

(** [$]: the end of the text, or the newline that ends it. *)
Definition at_end (s : str) : bool :=
  match s with
  | [] => true
  | [c] => (c =? 0x0A)%N
  | _ => false
  end.

(** *** Views used to state the properties *)

(** The name belongs to group [k]. *)
Definition in_group (group_of : str -> option str) (k name : str) : bool :=
  match group_of name with
  | Some k' => str_eqb k' k
  | None => false
  end.

(** The key of a name, 0 when the key raises. *)
Definition key_of (key : str -> res Z) (name : str) : Z :=
  match key name with
  | Ok z => z
  | Raise _ => 0%Z
  end.

(** The order of the keyed files. *)
Definition by_key (a b : Z * str) : Prop := (fst a <= fst b)%Z.

End Merge.

(** *** merge_parsed_files.py *)
Module MergeForum.
Import Merge.

(** [re.match(r"topic_(\d+)-\d+_parsed\.xlsx", name)]: group 1. A run of
    digits is followed by a character that is no digit (['-'], ['_']), so
    the longest run is the only one that can match. *)
Definition topic_of (name : str) : option str :=
  match match_lit_digits TOPIC_PREFIX name with
  | Some topic_id =>
      let rest := skipn (length TOPIC_PREFIX + length topic_id) name in
      match match_lit_digits DASH rest with
      | Some offset =>
          if startswith PARSED_SUFFIX (skipn (length DASH + length offset) rest)
          then Some topic_id
          else None
      | None => None
      end
  | None => None
  end.

(** A match of [-(\d+)_] at the head of [s]: group 1. *)
Definition match_offset (s : str) : option str :=
  match match_lit_digits DASH s with
  | Some offset =>
      if startswith UNDERSCORE (skipn (length DASH + length offset) s)
      then Some offset
      else None
  | None => None
  end.

(** [re.search(r"-(\d+)_", name)]: group 1 of the leftmost match. *)
Fixpoint search_offset (s : str) : option str :=
  match match_offset s with
  | Some offset => Some offset
  | None => match s with
            | [] => None
            | _ :: t => search_offset t
            end
  end.

(** [int(re.search(r"-(\d+)_", x.name).group(1))]: [.group] on [None] is
    an [AttributeError]. *)
Definition offset_key (name : str) : res Z :=
  match search_offset name with
  | Some offset => Ok (int_of_digits offset)
  | None => Raise AttributeError
  end.

Definition output_file (topic_id : str) : str := TOPIC_PREFIX ++ topic_id ++ XLSX_EXT.

(** [merge_excel_files] on the names [source_folder.glob("*.xlsx")]
    yields: for each topic, the file written and the files read for it. *)
Definition merge_excel_files (names : list str) : list (str * list str) * option exn :=
  let topic_files := group_files topic_of names in
  merge_groups offset_key output_file topic_files.

End MergeForum.

(** *** merge_parsed_votes.py *)
Module MergeVotes.
Import Merge.

(** The class [[a-zA-Z0-9\-]] *)
Definition is_id_char (c : N) : bool :=
  between 0x61 0x7A c || between 0x41 0x5A c || between 0x30 0x39 c || (c =? 0x2D)%N.

(** A match of [_page_(\d+)\.xlsx$] at the head of [s]: group 1. *)
Definition match_page (s : str) : option str :=
  match match_lit_digits PAGE_MARK s with
  | Some page =>
      let tail := skipn (length PAGE_MARK + length page) s in
      if startswith XLSX_EXT tail && at_end (skipn (length XLSX_EXT) tail)
      then Some page
      else None
  | None => None
  end.

(** [pattern.match(filename)] for
    [^(election_[a-zA-Z0-9\-]+)_page_\d+\.xlsx$]: group 1. The class has no
    ['_'], so its longest run is the only one that can match. *)
Definition election_of (filename : str) : option str :=
  if startswith ELECTION_PREFIX filename
  then
    let (id, rest) := span_until (fun c => negb (is_id_char c))
                                 (skipn (length ELECTION_PREFIX) filename) in
    match id with
    | [] => None
    | _ =>
        match match_page rest with
        | Some _ => Some (ELECTION_PREFIX ++ id)
        | None => None
        end
    end
  else None.

(** [re.search(r"_page_(\d+)\.xlsx$", x)]: group 1 of the leftmost match. *)
Fixpoint search_page (s : str) : option str :=
  match match_page s with
  | Some page => Some page
  | None => match s with
            | [] => None
            | _ :: t => search_page t
            end
  end.

Definition page_key (filename : str) : res Z :=
  match search_page filename with
  | Some page => Ok (int_of_digits page)
  | None => Raise AttributeError
  end.

Definition output_file (election_id : str) : str := election_id ++ XLSX_EXT.

(** An election and a page the pattern accepts in a file name: an
    identifier of letters, digits and dashes, and a page number. *)
Definition well_named (election_id page : str) : bool :=
  match election_id with [] => false | _ => true end
  && forallb is_id_char election_id
  && match page with [] => false | _ => true end
  && forallb is_digit page.

(** The script on the listing of the input folder: for each election, the
    file written and the files read for it. *)
Definition merge_votes (listing : list str) : list (str * list str) * option exn :=
  let files := filter (endswith XLSX_EXT) listing in
  let groups := group_files election_of files in
  merge_groups page_key output_file groups.

End MergeVotes.

(* ================================================================== *)
(** ** Sample documents, pages and worlds used by the examples *)
(* ================================================================== *)

Module Samples.
Local Open Scope string_scope.

Definition el (name : String.string) (attrs : list (String.string * String.string))
  (contents : list node) : node :=
  Tag (py name) (map (fun kv => (py (fst kv), py (snd kv))) attrs) contents.

Definition txt (s : String.string) : node := Text (py s).

(** A voter-list page: a header row, three voters, and a row of one cell. *)
Definition yes_row : node :=
  el "tr" [] [el "td" [] [txt " Jan Novák "]; el "td" [] [txt "Ano"]].
Definition dash_row : node :=
  el "tr" [] [el "td" [] [txt "Eva Malá"]; el "td" [] [txt "—"]].
(** The cell of this row reads [&mdash;] (in the markup: [&amp;mdash;]). *)
Definition entity_cell : node := el "td" [] [txt "&mdash;"].
Definition entity_row : node :=
  el "tr" [] [el "td" [] [txt "Petr Dlouhý"]; entity_cell].
Definition short_row : node :=
  el "tr" [] [el "td" [("colspan", "2")] [txt "Celkem 3"]].

Definition voter_table : node :=
  el "table" [("class", "pretty")]
    [ el "tr" [] [el "th" [] [txt "Jméno"]; el "th" [] [txt "Hlas"]];
      yes_row; dash_row; entity_row; short_row ].

Definition votes_page : node :=
  el "[document]" []
    [ el "h3" [("class", "title")] [txt "Volba předsedy — seznam voličů"];
      voter_table ].

(** A page with a title and no voter table. *)
Definition page_without_table : node :=
  el "[document]" []
    [ el "h3" [("class", "title")] [txt "Volba předsedy — seznam voličů"];
      el "p" [] [txt "Seznam voličů není k dispozici."] ].

(** A forum post with a profile, a title, a body and a thanks list: the
    list names two users and states a total of three. *)
Definition full_title_link : node := el "a" [("href", "#p123")] [txt "Re: Re: X"].
Definition full_thanks : node :=
  el "dl" [("class", "postbody-thanks")]
    [ el "dt" [] [txt "Za tento příspěvek poděkovali autorovi (celkem 3):"];
      el "dd" []
        [ el "a" [("class", "username")] [txt "Eva Malá"]; txt ", ";
          el "a" [("class", "username-coloured")] [txt "Petr Dlouhý"] ] ].
Definition full_postbody : node :=
  el "div" [("class", "postbody")]
    [ el "h3" [] [full_title_link];
      el "p" [("class", "author")]
        [ el "time" [("datetime", "2020-01-01T10:00:00+00:00")] [txt "01 led 2020, 10:00"] ];
      el "div" [("class", "content")] [txt "  Ahoj,   světe! "];
      full_thanks ].
Definition full_post : node :=
  el "div" [("id", "p123"); ("class", "post has-profile bg2")]
    [ el "dl" [("class", "postprofile")]
        [ el "dt" []
            [ el "a" [("class", "username-coloured");
                      ("href", "./memberlist.php?mode=viewprofile&u=42")]
                 [txt "Jan Novák"] ];
          el "dd" [("class", "profile-rank")] [txt "Člen"];
          el "dd" [("class", "profile-posts")]
            [ txt "Příspěvky: "; el "a" [] [txt "1234"] ];
          el "dd" [("class", "profile-joined")] [txt "Registrován: 05 led 2015, 12:00"] ];
      full_postbody ].

(** A post with a body and nothing about its author: no profile, no
    timestamp, no thanks list. *)
Definition plain_postbody : node :=
  el "div" [("class", "postbody")]
    [ el "h3" [] [el "a" [] [txt "Re: Hello"]];
      el "div" [("class", "content")] [txt "Text"] ].
Definition plain_post : node := el "div" [("id", "p7"); ("class", "post")] [plain_postbody].


Definition forum_page : node := el "[document]" [] [full_post; plain_post].

(** *** Pages and worlds *)

(** A response; its parsed body is given only where the code reads it. *)
Definition page_of (status : Z) (body : str) (soup : node) : response :=
  {| status_code := status; text := body; resp_url := []; resp_soup := soup |}.

Definition no_soup : node := el "[document]" [] [].

(** A world that answers the requests with [answers], in order, from a
    network that is down afterwards. *)
Definition world_of (answers : list outcome) : world :=
  {| net := fun n _ => nth n answers NetworkError; sent := 0; now := 0; log := [] |}.

Definition topic_url : str := py "https://forum.pirati.cz/viewtopic.php?f=5&t=47593&start=20".


(** An error page of the forum, in capitals. *)
Definition not_found_page : response :=
  page_of 200
    (py "<html><head><title>Information</title></head><body><div class='panel'><h2>Information</h2><p>TOPIC NOT FOUND</p></div></body></html>")
    no_soup.

(** The page an anonymous visitor gets for a protected topic. *)
Definition login_wall_page : response :=
  page_of 200
    (py "<html><head><title>Information</title></head><body><div class='panel'><h2>Information</h2><p>The board requires you to be registered and logged in to view this forum.</p></div></body></html>")
    no_soup.

(** A topic page, and the same page for a member who is logged in. *)
Definition topic_page : response :=
  page_of 200
    (py "<html><head><title>Diskuse</title></head><body><div id='p123' class='post'><div class='postbody'><div class='content'>Ahoj, světe!</div></div></div></body></html>")
    no_soup.


(** The login page of the identity provider, with its form. *)
Definition keycloak_form : node :=
  el "form" [("id", "kc-form-login"); ("action", "/auth/login-actions/authenticate?session_code=abc")]
    [ el "input" [("type", "text"); ("name", "username")] [];
      el "input" [("type", "password"); ("name", "password")] [];
      el "input" [("type", "hidden"); ("name", "credentialId"); ("value", "")] [];
      el "input" [("type", "hidden"); ("name", "execution"); ("value", "e1")] [] ].

Definition keycloak_page : response :=
  {| status_code := 200;
     text := py "<html><body><form id='kc-form-login'>...</form></body></html>";
     resp_url := py "https://auth.pirati.cz/auth/realms/pirati/protocol/openid-connect/auth";
     resp_soup := el "[document]" [] [el "html" [] [el "body" [] [keycloak_form]]] |}.




(** The link of the author in [full_post]. *)
Definition full_username_link : node :=
  el "a" [("class", "username-coloured");
          ("href", "./memberlist.php?mode=viewprofile&u=42")]
     [txt "Jan Novák"].

(** The identity provider answers and accepts the credentials; the forum
    does not answer afterwards. *)
Definition forum_down_world : world :=
  world_of [Answer keycloak_page; Answer topic_page].

(** A page the forum scraper saved for topic 47593 at offset 20, and one
    saved for a link that names no topic. *)
Definition topic_47593 : str := Eval vm_compute in py "47593".
Definition offset_20 : str := Eval vm_compute in py "20".

Definition saved_topic_page : Forum.page_data :=
  {| Forum.pd_id := Some topic_47593; Forum.pd_start := Some offset_20;
     Forum.pd_url := topic_url; Forum.raw_html := text topic_page;
     Forum.scraped_at := 0; Forum.pd_status_code := 200;
     Forum.content_length := length (text topic_page) |}.



End Samples.

(* ================================================================== *)
(** * Properties *)
(* ================================================================== *)

Unset Implicit Arguments.

(** ** Strings *)

Lemma str_eqb_eq (a b : str) : str_eqb a b = true <-> a = b.
Proof.
  revert b; induction a as [|x a IH]; intros [|y b]; simpl; split; intro H;
    try reflexivity; try discriminate.
  - apply andb_true_iff in H as [Hx Hab]. apply N.eqb_eq in Hx.
    apply IH in Hab. now subst.
  - injection H as -> ->. rewrite N.eqb_refl. now apply IH.
Qed.

Lemma str_eqb_refl (a : str) : str_eqb a a = true.
Proof. now apply str_eqb_eq. Qed.

Lemma str_in_In (x : str) (l : list str) : str_in x l = true <-> In x l.
Proof.
  unfold str_in. rewrite existsb_exists. split.
  - intros [y [Hy Heq]]. apply str_eqb_eq in Heq. now subst.
  - intro H. exists x. split; [assumption | apply str_eqb_refl].
Qed.

(** ** Vote-table extraction *)

Section VoteProperties.
Import Votes.

Lemma vote_of_zero (vote_raw : str) :
  vote_of vote_raw = 0%Z <->
  vote_raw = EM_DASH \/ vote_raw = MDASH_ENTITY \/ vote_raw = [].
Proof.
  unfold vote_of. destruct (str_in vote_raw _) eqn:E.
  - apply str_in_In in E. simpl in E. split; [intros _ | reflexivity].
    destruct E as [E|[E|[E|[]]]]; auto.
  - split; [discriminate|]. intro H.
    assert (In vote_raw [EM_DASH; MDASH_ENTITY; []]) as HI
      by (simpl; destruct H as [H|[H|H]]; auto).
    apply str_in_In in HI. congruence.
Qed.

Lemma vote_of_binary (vote_raw : str) :
  vote_of vote_raw = 0%Z \/ vote_of vote_raw = 1%Z.
Proof. unfold vote_of. destruct (str_in _ _); auto. Qed.

Lemma rows_data_In (title : str) (rows : list node) (row : node) (d : vote_record) :
  In row rows -> row_record title row = Some d -> In d (rows_data title rows).
Proof.
  induction rows as [|r rows IH]; simpl; [tauto|].
  intros [->|Hin] Hd.
  - rewrite Hd. now left.
  - destruct (row_record title r); [right|]; now apply IH.
Qed.

(** C1 (as amended). For every row of the voter table after the header that
    has at least two cells, the page's records hold the record of that row:
    its name is the stripped text of the first cell, its vote is 0 or 1,
    and the vote is 0 exactly when the stripped text of the second cell is
    the em-dash, the entity text [&mdash;], or empty. *)
Theorem C1_vote_normalization :
  forall (soup table row c0 c1 : node) (rest : list node),
    find (py "table") (ClassIn [py "pretty"]) soup = Some table ->
    In row (tl (find_all (py "tr") AnyAttrs table)) ->
    find_all (py "td") AnyAttrs row = c0 :: c1 :: rest ->
    exists records d,
      extract_votes soup = Ok records /\
      row_record (page_title soup) row = Some d /\ In d records /\
      vr_name d = get_text_strip c0 /\
      (vr_vote d = 0%Z \/ vr_vote d = 1%Z) /\
      (vr_vote d = 0%Z <->
         get_text_strip c1 = EM_DASH \/ get_text_strip c1 = MDASH_ENTITY
         \/ get_text_strip c1 = []).
Proof.
  intros soup table row c0 c1 rest Htable Hrow Hcols.
  unfold extract_votes. rewrite Htable.
  assert (row_record (page_title soup) row =
          Some {| vr_title := page_title soup; vr_name := get_text_strip c0;
                  vr_vote := vote_of (get_text_strip c1) |}) as Hrec
    by (unfold row_record; now rewrite Hcols).
  eexists. eexists. split; [reflexivity|]. split; [exact Hrec|].
  split; [eapply rows_data_In; eauto|]. simpl.
  split; [reflexivity|]. split; [apply vote_of_binary | apply vote_of_zero].
Qed.

(** The sample page: the row whose second cell reads [&mdash;]. *)
Lemma C1_vote_normalization_witness :
  exists records d,
    extract_votes Samples.votes_page = Ok records /\
    row_record (page_title Samples.votes_page) Samples.entity_row = Some d /\
    In d records /\
    vr_name d = get_text_strip (Samples.el "td" [] [Samples.txt "Petr Dlouhý"]) /\
    (vr_vote d = 0%Z \/ vr_vote d = 1%Z) /\
    (vr_vote d = 0%Z <->
       get_text_strip Samples.entity_cell = EM_DASH
       \/ get_text_strip Samples.entity_cell = MDASH_ENTITY
       \/ get_text_strip Samples.entity_cell = []).
Proof.
  apply (C1_vote_normalization Samples.votes_page Samples.voter_table
           Samples.entity_row _ _ []).
  - reflexivity.
  - simpl. tauto.
  - reflexivity.
Defined.

(** C1 as stated fails: a cell whose text is the seven characters
    [&mdash;] is neither an em-dash nor empty, and its vote is 0. *)
Lemma C1_entity_text_votes_zero :
  row_record (py "Volba") Samples.entity_row
    = Some {| vr_title := py "Volba"; vr_name := py "Petr Dlouhý"; vr_vote := 0 |}
  /\ get_text_strip Samples.entity_cell = py "&mdash;"
  /\ get_text_strip Samples.entity_cell <> EM_DASH
  /\ get_text_strip Samples.entity_cell <> [].
Proof. repeat split; try reflexivity; intro H; vm_compute in H; discriminate H. Qed.

(** Rows with fewer than two cells are skipped, the others are kept. *)
Lemma rows_data_skip (title : str) (row : node) (rows : list node) :
  row_record title row = None ->
  rows_data title (row :: rows) = rows_data title rows.
Proof. intro H. simpl. now rewrite H. Qed.

Lemma sample_votes_page_records :
  extract_votes Samples.votes_page
  = Ok [ {| vr_title := py "Volba předsedy"; vr_name := py "Jan Novák"; vr_vote := 1 |};
         {| vr_title := py "Volba předsedy"; vr_name := py "Eva Malá"; vr_vote := 0 |};
         {| vr_title := py "Volba předsedy"; vr_name := py "Petr Dlouhý"; vr_vote := 0 |} ].
Proof. reflexivity. Qed.

(** A voter table with no row after the header gives no record. *)
Lemma extract_votes_header_only (soup table : node) :
  find (py "table") (ClassIn [py "pretty"]) soup = Some table ->
  tl (find_all (py "tr") AnyAttrs table) = [] ->
  extract_votes soup = Ok [].
Proof. intros Ht Hr. unfold extract_votes. now rewrite Ht, Hr. Qed.

(** C5 (the part the code breaks). A page without a voter table does not
    give the empty sequence: [table] is [None] and [table.find_all] raises
    [AttributeError], which nothing catches. *)
Theorem C5_missing_table_raises :
  find (py "table") (ClassIn [py "pretty"]) Samples.page_without_table = None
  /\ extract_votes Samples.page_without_table = Raise AttributeError.
Proof. split; reflexivity. Qed.

End VoteProperties.

(** ** Forum post extraction *)

Section ParserProperties.
Import ForumXMLParser.

(** *** Dictionaries *)

Lemma dict_get_set_same (k : String.string) (v : value) (d : dict) :
  dict_get k (dict_set k v d) = Some v.
Proof.
  induction d as [|[k' v'] d IH]; simpl.
  - now rewrite String.eqb_refl.
  - destruct (String.eqb k' k) eqn:E; simpl; rewrite E; [reflexivity | exact IH].
Qed.

Lemma dict_get_set_other (k k' : String.string) (v : value) (d : dict) :
  k <> k' -> dict_get k (dict_set k' v d) = dict_get k d.
Proof.
  intro Hne. induction d as [|[k0 v0] d IH]; simpl.
  - destruct (String.eqb k' k) eqn:E; [apply String.eqb_eq in E; congruence | reflexivity].
  - destruct (String.eqb k0 k') eqn:E; simpl.
    + apply String.eqb_eq in E. subst k0.
      destruct (String.eqb k' k) eqn:E'; [apply String.eqb_eq in E'; congruence | reflexivity].
    + destruct (String.eqb k0 k); [reflexivity | exact IH].
Qed.

Lemma dict_has_set_same (k : String.string) (v : value) (d : dict) :
  dict_has k (dict_set k v d) = true.
Proof. unfold dict_has. now rewrite dict_get_set_same. Qed.

Lemma dict_has_set_other (k k' : String.string) (v : value) (d : dict) :
  k <> k' -> dict_has k (dict_set k' v d) = dict_has k d.
Proof. intro H. unfold dict_has. now rewrite dict_get_set_other. Qed.

(** Each block of [extract_post_content] leaves the other keys alone. *)

Lemma set_title_other (k : String.string) (pb : node) (d : dict) :
  k <> "title"%string -> dict_get k (set_title pb d) = dict_get k d.
Proof.
  intro H. unfold set_title. destruct (title_link pb); [|reflexivity].
  now apply dict_get_set_other.
Qed.

Lemma set_datetime_other (k : String.string) (pb : node) (d : dict) :
  k <> "datetime"%string -> dict_get k (set_datetime pb d) = dict_get k d.
Proof.
  intro H. unfold set_datetime.
  destruct (find _ _ pb) as [author_p|]; [|reflexivity].
  destruct (find _ _ author_p); [|reflexivity].
  now apply dict_get_set_other.
Qed.

Lemma set_content_other (k : String.string) (pb : node) (d : dict) :
  k <> "content"%string -> dict_get k (set_content pb d) = dict_get k d.
Proof.
  intro H. unfold set_content. destruct (find _ _ pb); [|reflexivity].
  now apply dict_get_set_other.
Qed.

Lemma set_thanks_other (k : String.string) (pb : node) (d : dict) :
  k <> "thanks_count"%string -> k <> "thanks_users"%string ->
  dict_get k (set_thanks pb d) = dict_get k d.
Proof.
  intros Hc Hu. unfold set_thanks.
  destruct (thanks_line pb) as [[thanks_dl dt_elem]|]; [|reflexivity].
  cbv zeta.
  assert (dict_get k
            match re_search_lit_digits CELKEM (get_text dt_elem) with
            | Some count => dict_set "thanks_count" (VInt (int_of_digits count)) d
            | None => d
            end = dict_get k d) as Hcount
    by (destruct (re_search_lit_digits _ _); [now apply dict_get_set_other | reflexivity]).
  destruct (find _ _ thanks_dl); [|exact Hcount].
  destruct (dict_has _ _); repeat rewrite dict_get_set_other by assumption; exact Hcount.
Qed.

Lemma dict_get_set_default (k k' : String.string) (v : value) (d : dict) :
  dict_get k (set_default k' v d)
  = if String.eqb k' k
    then match dict_get k d with Some x => Some x | None => Some v end
    else dict_get k d.
Proof.
  unfold set_default, dict_has. destruct (String.eqb k' k) eqn:E.
  - apply String.eqb_eq in E. subst k'.
    destruct (dict_get k d) eqn:G; [exact G | apply dict_get_set_same].
  - assert (k <> k') by (intros ->; now rewrite String.eqb_refl in E).
    destruct (dict_get k' d); [reflexivity | now apply dict_get_set_other].
Qed.

(** What the thanks block writes into a dictionary that has neither key. *)
Lemma set_thanks_fresh (pb : node) (d : dict) :
  dict_get "thanks_count" d = None -> dict_get "thanks_users" d = None ->
  match thanks_line pb with
  | Some (thanks_dl, dt_elem) =>
      match find (py "dd") AnyAttrs thanks_dl with
      | Some dd_elem =>
          dict_get "thanks_users" (set_thanks pb d)
          = Some (VStr (str_join (py ", ") (thanks_names dd_elem)))
          /\ dict_get "thanks_count" (set_thanks pb d)
             = Some (VInt match re_search_lit_digits CELKEM (get_text dt_elem) with
                          | Some count => int_of_digits count
                          | None => Z.of_nat (length (thanks_names dd_elem))
                          end)
      | None =>
          dict_get "thanks_users" (set_thanks pb d) = None
          /\ dict_get "thanks_count" (set_thanks pb d)
             = match re_search_lit_digits CELKEM (get_text dt_elem) with
               | Some count => Some (VInt (int_of_digits count))
               | None => None
               end
      end
  | None =>
      dict_get "thanks_users" (set_thanks pb d) = None
      /\ dict_get "thanks_count" (set_thanks pb d) = None
  end.
Proof.
  intros Hc Hu. unfold set_thanks.
  destruct (thanks_line pb) as [[thanks_dl dt_elem]|]; [|now split].
  cbv zeta.
  destruct (find _ _ thanks_dl) as [dd_elem|];
    destruct (re_search_lit_digits _ _) as [count|]; unfold dict_has;
    repeat first
      [ rewrite dict_get_set_same
      | rewrite dict_get_set_other by discriminate
      | rewrite Hc | rewrite Hu ];
    split; reflexivity.
Qed.

Lemma removeprefix_stripped (p rest : str) : removeprefix p (p ++ rest) = rest.
Proof.
  unfold removeprefix.
  assert (startswith p (p ++ rest) = true) as ->.
  { induction p; simpl; [reflexivity|]. now rewrite N.eqb_refl. }
  induction p; simpl; auto.
Qed.

Lemma removeprefix_kept (p s : str) : startswith p s = false -> removeprefix p s = s.
Proof. intro H. unfold removeprefix. now rewrite H. Qed.


(** A post that has a body: its record is the two defaults over the
    thanks block, run on a dictionary that has neither thanks key. *)
Lemma post_content_shape (post_div postbody_div : node) :
  find (py "div") (ClassIn [py "postbody"]) post_div = Some postbody_div ->
  exists d,
    extract_post_content post_div
    = set_default "thanks_count" (VInt 0)
        (set_default "thanks_users" (VStr []) (set_thanks postbody_div d)) /\
    dict_get "thanks_count" d = None /\ dict_get "thanks_users" d = None.
Proof.
  intro Hbody. unfold extract_post_content. rewrite Hbody. cbv zeta.
  eexists. split; [reflexivity|].
  split; rewrite set_content_other, set_datetime_other, set_title_other by discriminate;
    reflexivity.
Qed.


Lemma dict_get_None (k : String.string) (d : dict) :
  dict_get k d = None <-> ~ In k (keys d).
Proof.
  induction d as [|[k' v] d IH]; simpl; [tauto|].
  destruct (String.eqb k' k) eqn:E.
  - apply String.eqb_eq in E. split; [discriminate | intros H; exfalso; auto].
  - apply String.eqb_neq in E. rewrite IH. tauto.
Qed.

Lemma keys_set (k : String.string) (v : value) (d : dict) :
  keys (dict_set k v d) = if dict_has k d then keys d else keys d ++ [k].
Proof.
  unfold dict_has. induction d as [|[k' v'] d IH]; simpl; [reflexivity|].
  destruct (String.eqb k' k) eqn:E; simpl; [reflexivity|].
  rewrite IH. now destruct (dict_get k d).
Qed.

Lemma NoDup_snoc {A} (l : list A) (x : A) : NoDup l -> ~ In x l -> NoDup (l ++ [x]).
Proof.
  induction l as [|y l IH]; simpl; intros Hnd Hx.
  - constructor; [tauto | constructor].
  - inversion Hnd; subst. constructor.
    + rewrite in_app_iff. simpl. intros [H|[H|[]]]; [tauto | subst; tauto].
    + apply IH; tauto.
Qed.

Lemma dict_set_nodup (k : String.string) (v : value) (d : dict) :
  NoDup (keys d) -> NoDup (keys (dict_set k v d)).
Proof.
  intro H. rewrite keys_set. unfold dict_has.
  destruct (dict_get k d) eqn:G; [exact H|].
  apply NoDup_snoc; [exact H | now apply dict_get_None].
Qed.

Lemma dict_update_nodup (d more : dict) :
  NoDup (keys d) -> NoDup (keys (dict_update d more)).
Proof.
  unfold dict_update. revert d. induction more as [|[k v] more IH]; simpl; intros d H.
  - exact H.
  - apply IH. now apply dict_set_nodup.
Qed.

Lemma dict_get_update (k : String.string) (d more : dict) :
  NoDup (keys more) ->
  dict_get k (dict_update d more)
  = match dict_get k more with Some v => Some v | None => dict_get k d end.
Proof.
  unfold dict_update. revert d.
  induction more as [|[k0 v0] more IH]; simpl; intros d Hnd; [reflexivity|].
  inversion Hnd as [|? ? Hk0 Hnd']; subst.
  rewrite IH by assumption.
  destruct (String.eqb k0 k) eqn:E.
  - apply String.eqb_eq in E. subst k0.
    apply dict_get_None in Hk0. rewrite Hk0. apply dict_get_set_same.
  - apply String.eqb_neq in E.
    destruct (dict_get k more); [reflexivity|].
    apply dict_get_set_other. congruence.
Qed.

Create HintDb dicts.
#[local] Hint Resolve dict_set_nodup : dicts.

Lemma set_title_nodup (pb : node) (d : dict) :
  NoDup (keys d) -> NoDup (keys (set_title pb d)).
Proof. intro H. unfold set_title. destruct (title_link pb); auto with dicts. Qed.

Lemma set_datetime_nodup (pb : node) (d : dict) :
  NoDup (keys d) -> NoDup (keys (set_datetime pb d)).
Proof.
  intro H. unfold set_datetime. destruct (find _ _ pb) as [author_p|]; [|exact H].
  destruct (find _ _ author_p); auto with dicts.
Qed.

Lemma set_content_nodup (pb : node) (d : dict) :
  NoDup (keys d) -> NoDup (keys (set_content pb d)).
Proof. intro H. unfold set_content. destruct (find _ _ pb); auto with dicts. Qed.

Lemma set_thanks_nodup (pb : node) (d : dict) :
  NoDup (keys d) -> NoDup (keys (set_thanks pb d)).
Proof.
  intro H. unfold set_thanks.
  destruct (thanks_line pb) as [[thanks_dl dt_elem]|]; [|exact H].
  cbv zeta.
  destruct (find _ _ thanks_dl); destruct (re_search_lit_digits _ _);
    try destruct (dict_has _ _); auto 6 with dicts.
Qed.

Lemma set_default_nodup (k : String.string) (v : value) (d : dict) :
  NoDup (keys d) -> NoDup (keys (set_default k v d)).
Proof. intro H. unfold set_default. destruct (dict_has k d); auto with dicts. Qed.

#[local] Hint Resolve set_title_nodup set_datetime_nodup set_content_nodup
  set_thanks_nodup set_default_nodup : dicts.

Lemma extract_post_content_nodup (post_div : node) :
  NoDup (keys (extract_post_content post_div)).
Proof.
  unfold extract_post_content.
  destruct (find _ _ post_div) as [pb|]; cbv zeta;
    auto 10 using NoDup_nil with dicts.
Qed.


(** *** The spreadsheet *)












(** *** The claims *)

(** C6. The title of a post whose body has a heading link is the cleaned
    link text with ["Re: "] removed when the text starts with it: what
    follows the first ["Re: "] is kept as it is (a second ["Re: "]
    included), and a text that does not start with ["Re: "] is unchanged. *)
Theorem C6_title_prefix :
  forall (post_div postbody_div link : node),
    find (py "div") (ClassIn [py "postbody"]) post_div = Some postbody_div ->
    title_link postbody_div = Some link ->
    exists title,
      dict_get "title" (extract_post_content post_div) = Some (VStr title) /\
      title = removeprefix RE_PREFIX (clean_text (get_text link)) /\
      (forall rest, clean_text (get_text link) = RE_PREFIX ++ rest -> title = rest) /\
      (startswith RE_PREFIX (clean_text (get_text link)) = false ->
       title = clean_text (get_text link)) /\
      removeprefix RE_PREFIX (py "Re: Hello") = py "Hello" /\
      removeprefix RE_PREFIX (py "Re: Re: X") = py "Re: X".
Proof.
  intros post_div postbody_div link Hbody Hlink.
  exists (removeprefix RE_PREFIX (clean_text (get_text link))).
  split.
  - unfold extract_post_content. rewrite Hbody. cbv zeta.
    rewrite !dict_get_set_default. cbn [String.eqb Ascii.eqb Bool.eqb].
    rewrite set_thanks_other, set_content_other, set_datetime_other by discriminate.
    unfold set_title. rewrite Hlink. apply dict_get_set_same.
  - split; [reflexivity|]. split; [|split; [|split; reflexivity]].
    + intros rest ->. apply removeprefix_stripped.
    + apply removeprefix_kept.
Qed.


(** The sample post, titled ["Re: Re: X"]. *)
Lemma C6_title_prefix_witness :
  dict_get "title" (extract_post_content Samples.full_post) = Some (VStr (py "Re: X")).
Proof.
  destruct (C6_title_prefix Samples.full_post Samples.full_postbody
              Samples.full_title_link eq_refl eq_refl) as [title [Hget [Htitle _]]].
  rewrite Hget, Htitle. reflexivity.
Defined.







(** C5, the forum half (which holds): a page without post containers gives
    no record, and every post container gives its record, whatever it
    lacks. *)
Lemma parse_forum_xml_no_posts (soup : node) (forum_id : str) :
  find_all (py "div") (ClassIn [py "post"]) soup = [] ->
  parse_forum_xml soup forum_id = [].
Proof. intro H. unfold parse_forum_xml. now rewrite H. Qed.

Lemma parse_forum_xml_length (soup : node) (forum_id : str) :
  length (parse_forum_xml soup forum_id)
  = length (find_all (py "div") (ClassIn [py "post"]) soup).
Proof. unfold parse_forum_xml. apply length_map. Qed.

End ParserProperties.

(** ** Substrings and case *)

Lemma startswith_app (p rest : str) : startswith p (p ++ rest) = true.
Proof. induction p; simpl; [reflexivity|]. now rewrite N.eqb_refl. Qed.

Lemma startswith_inv (p s : str) :
  startswith p s = true -> exists rest, s = p ++ rest.
Proof.
  revert s. induction p as [|x p IH]; intros s H.
  - now exists s.
  - destruct s as [|y s]; [discriminate|]. simpl in H.
    apply andb_true_iff in H as [Hx Hp]. apply N.eqb_eq in Hx. subst y.
    destruct (IH s Hp) as [rest ->]. now exists rest.
Qed.

Lemma str_contains_head (sub s : str) :
  startswith sub s = true -> str_contains sub s = true.
Proof. intro H. destruct s; simpl; now rewrite H. Qed.

(** [sub in s] holds exactly when [s] is some text, [sub], some text. *)
Lemma str_contains_iff (sub s : str) :
  str_contains sub s = true <-> exists a b, s = a ++ sub ++ b.
Proof.
  split.
  - induction s as [|c s IH]; simpl; intro H.
    + rewrite orb_false_r in H. destruct (startswith_inv _ _ H) as [rest E].
      exists [], rest. exact E.
    + apply orb_true_iff in H as [H|H].
      * destruct (startswith_inv _ _ H) as [rest E]. exists [], rest. exact E.
      * destruct (IH H) as [a [b ->]]. now exists (c :: a), b.
  - intros [a [b ->]]. induction a as [|c a IH]; simpl.
    + apply str_contains_head, startswith_app.
    + rewrite IH. apply orb_true_r.
Qed.

Lemma str_lower_app (a b : str) : str_lower (a ++ b) = str_lower a ++ str_lower b.
Proof. apply flat_map_app. Qed.

(** The scan is blind to case: a text that holds a marker in any casing
    holds the marker once lowered. *)
Lemma str_contains_lower (variant s : str) :
  str_contains variant s = true ->
  str_contains (str_lower variant) (str_lower s) = true.
Proof.
  intro H. apply str_contains_iff in H as [a [b ->]].
  apply str_contains_iff. exists (str_lower a), (str_lower b).
  now rewrite !str_lower_app.
Qed.


(** ** URLs *)

(** *** Splitting at a character *)








(** *** [split] and [join] on one character *)





(** *** The shape of what [urlsplit] removes in front of the path *)


Lemma span_until_spec (stop : N -> bool) (s a b : str) :
  span_until stop s = (a, b) -> s = a ++ b /\ forallb (fun c => negb (stop c)) a = true.
Proof.
  revert a. induction s as [|c s IH]; simpl; intros a H.
  - injection H as <- <-. now split.
  - destruct (stop c) eqn:E.
    + injection H as <- <-. now split.
    + destruct (span_until stop s) as [a' b']. injection H as <- <-.
      destruct (IH a' eq_refl) as [-> Ha]. simpl. rewrite E. now split.
Qed.


(** ** The forum scraper *)

Section ForumScraperProperties.
Import Forum.

(** *** The query of a URL written as base, query, fragment *)







(** *** [parse_qsl] reads back what [urlencode] wrote *)








(** *** [parse_qs]: the first value of each name *)







Lemma requests_app (l1 l2 : list event) :
  requests (l1 ++ l2) = requests l1 ++ requests l2.
Proof.
  induction l1 as [|e l1 IH]; simpl; [reflexivity|].
  destruct e; simpl; now rewrite IH.
Qed.

Lemma written_app (l1 l2 : list event) :
  written (l1 ++ l2) = written l1 ++ written l2.
Proof.
  induction l1 as [|e l1 IH]; simpl; [reflexivity|].
  destruct e; simpl; now rewrite IH.
Qed.



Lemma scrape_url_error_page (url : str) (w : world) (r : response) :
  net w (sent w) (GET url) = Answer r ->
  existsb (fun indicator => str_contains indicator (str_lower (text r))) error_indicators
  = true ->
  scrape_url url w = (Ok None, after_send (GET url) w).
Proof.
  intros Hnet Hind.
  unfold scrape_url, try_except, bind, session_get, send. rewrite Hnet.
  destruct (negb (status_code r =? 200)%Z); [reflexivity|].
  destruct (length (str_strip (text r)) <? 100); [reflexivity|].
  rewrite Hind. reflexivity.
Qed.


(** *** The claims *)

(** C2 (as amended). Whatever the status and the length of the answer, a
    body that holds one of the six error indicators, in any casing, makes
    [scrape_url] return [None]: the body is lowered and scanned for the
    phrases. The six phrases say that a topic does not exist, that a topic
    was not found and that a page was not found, in English and in Czech;
    no phrase about registration is among them. *)
Theorem C2_error_page_classification :
  forall (url : str) (w : world) (r : response) (indicator variant : str),
    net w (sent w) (GET url) = Answer r ->
    In indicator error_indicators ->
    str_lower variant = indicator ->
    str_contains variant (text r) = true ->
    scrape_url url w = (Ok None, after_send (GET url) w)
    /\ error_indicators
       = map py [ "this topic does not exist"; "toto téma neexistuje";
                  "topic not found"; "téma nenalezeno";
                  "page not found"; "stránka nenalezena" ]%string.
Proof.
  intros url w r indicator variant Hnet Hin Hlow Hvar.
  split; [|reflexivity].
  apply (scrape_url_error_page url w r Hnet).
  apply existsb_exists. exists indicator. split; [exact Hin|].
  subst indicator. now apply str_contains_lower.
Qed.

(** The sample error page holds TOPIC NOT FOUND, in capitals. *)
Lemma C2_error_page_classification_witness :
  scrape_url Samples.topic_url (Samples.world_of [Answer Samples.not_found_page])
  = (Ok None,
     after_send (GET Samples.topic_url) (Samples.world_of [Answer Samples.not_found_page])).
Proof.
  apply (C2_error_page_classification Samples.topic_url
           (Samples.world_of [Answer Samples.not_found_page]) Samples.not_found_page
           (py "topic not found") (py "TOPIC NOT FOUND")).
  - reflexivity.
  - simpl. tauto.
  - reflexivity.
  - reflexivity.
Defined.

(** C2 as stated fails: the page that says the board requires you to be
    registered and logged in has status 200 and 190 characters, holds none
    of the six indicators, and is kept as a usable page. *)
Lemma C2_login_wall_is_kept :
  str_contains REGISTRATION_REQUIRED_EN (text Samples.login_wall_page) = true /\
  existsb (fun indicator => str_contains indicator REGISTRATION_REQUIRED_EN)
          error_indicators = false /\
  exists d,
    fst (scrape_url Samples.topic_url (Samples.world_of [Answer Samples.login_wall_page]))
    = Ok (Some d)
    /\ raw_html d = text Samples.login_wall_page.
Proof. split; [reflexivity|]. split; [reflexivity|]. eexists. split; reflexivity. Qed.








End ForumScraperProperties.

(** ** The election-roll scraper *)

Section HeliosProperties.
Import Helios.








End HeliosProperties.

(** ** Cleaned text and link files *)

Section TextProperties.
Import ForumXMLParser.

Lemma lstrip_by_head (drop : N -> bool) (s : str) :
  match lstrip_by drop s with [] => True | c :: _ => drop c = false end.
Proof.
  induction s as [|c s IH]; simpl; [exact I|].
  destruct (drop c) eqn:E; [exact IH | exact E].
Qed.

Lemma lstrip_by_suffix (drop : N -> bool) (s : str) :
  exists pre, s = pre ++ lstrip_by drop s.
Proof.
  induction s as [|c s [pre IH]]; simpl; [now exists []|].
  destruct (drop c); [exists (c :: pre); simpl; now f_equal | now exists []].
Qed.

Lemma str_strip_trimmed (s : str) : trimmed (str_strip s).
Proof.
  unfold trimmed, str_strip, rstrip_by. split.
  - destruct (lstrip_by_suffix is_space (rev (lstrip_by is_space s))) as [pre E].
    apply (f_equal (@rev N)) in E. rewrite rev_involutive, rev_app_distr in E.
    pose proof (lstrip_by_head is_space s) as H. rewrite E in H.
    destruct (rev (lstrip_by is_space (rev (lstrip_by is_space s)))); [exact I | exact H].
  - rewrite rev_involutive. apply lstrip_by_head.
Qed.

Lemma str_strip_of_trimmed (s : str) : trimmed s -> str_strip s = s.
Proof.
  intros [Hhd Hlast]. unfold str_strip, rstrip_by.
  assert (forall x : str, match x with [] => True | c :: _ => is_space c = false end ->
                          lstrip_by is_space x = x) as Hid
    by (intros [|c x] H; simpl; [reflexivity | now rewrite H]).
  rewrite (Hid s Hhd), (Hid (rev s) Hlast). apply rev_involutive.
Qed.

Lemma collapse_ws_snoc (b : bool) (s : str) (c : N) :
  is_space c = false -> collapse_ws b (s ++ [c]) = collapse_ws b s ++ [c].
Proof.
  intro Hc. revert b. induction s as [|x s IH]; intro b; simpl.
  - now rewrite Hc.
  - destruct (is_space x); [destruct b|]; simpl; now rewrite IH.
Qed.

Lemma collapse_ws_trimmed (s : str) : trimmed s -> trimmed (collapse_ws false s).
Proof.
  intros [Hhd Hlast]. split.
  - destruct s as [|c s]; simpl; [exact I|]. now rewrite Hhd.
  - destruct (rev s) as [|d u] eqn:E; [apply (f_equal (@rev N)) in E;
      rewrite rev_involutive in E; subst s; exact I|].
    apply (f_equal (@rev N)) in E. rewrite rev_involutive in E. simpl in E. subst s.
    rewrite collapse_ws_snoc by exact Hlast. rewrite rev_app_distr. exact Hlast.
Qed.

Lemma collapse_ws_single_spaced (b : bool) (s : str) :
  single_spaced b (collapse_ws b s) = true.
Proof.
  revert b. induction s as [|c s IH]; intro b; simpl; [reflexivity|].
  destruct (is_space c) eqn:E.
  - destruct b; [apply IH|]. simpl. apply IH.
  - simpl. rewrite E. apply IH.
Qed.

Lemma collapse_ws_of_single_spaced (b : bool) (s : str) :
  single_spaced b s = true -> collapse_ws b s = s.
Proof.
  revert b. induction s as [|c s IH]; intro b; simpl; [reflexivity|].
  destruct (is_space c).
  - intro H. repeat rewrite andb_true_iff in H. destruct H as [[Hc Hb] Hs].
    apply N.eqb_eq in Hc. subst c. destruct b; [discriminate|]. now rewrite IH.
  - intro H. now rewrite IH.
Qed.

Lemma single_spaced_In (b : bool) (s : str) (c : N) :
  single_spaced b s = true -> In c s -> is_space c = true -> c = 32%N.
Proof.
  revert b. induction s as [|x s IH]; intros b H Hin Hc; [contradiction|].
  simpl in H. destruct Hin as [->|Hin].
  - rewrite Hc in H. repeat rewrite andb_true_iff in H. destruct H as [[H _] _].
    now apply N.eqb_eq.
  - destruct (is_space x); [repeat rewrite andb_true_iff in H; destruct H as [_ H]|];
      eapply IH; eauto.
Qed.

Lemma single_spaced_no_pair (b : bool) (s a t : str) (x y : N) :
  single_spaced b s = true -> s = a ++ x :: y :: t ->
  is_space x = true -> is_space y = false.
Proof.
  revert b s. induction a as [|c a IH]; intros b s H -> Hx; simpl in H.
  - rewrite Hx in H. repeat rewrite andb_true_iff in H. destruct H as [_ H].
    destruct (is_space y); [|reflexivity]. simpl in H.
    rewrite andb_false_r in H. discriminate.
  - destruct (is_space c); [repeat rewrite andb_true_iff in H; destruct H as [_ H]|];
      eapply IH; eauto.
Qed.

(** [clean_text] gives a trimmed text whose only whitespace is single
    spaces. *)
Lemma clean_text_shape (text : str) :
  trimmed (clean_text text) /\ single_spaced false (clean_text text) = true.
Proof.
  unfold clean_text. destruct text as [|c text]; [repeat split|].
  split; [apply collapse_ws_trimmed, str_strip_trimmed | apply collapse_ws_single_spaced].
Qed.

(** X1. Whatever the text, [clean_text] gives a text that neither starts
    nor ends with whitespace, whose only whitespace character is the space,
    and in which no two whitespace characters follow each other. *)
Theorem clean_text_normal_form :
  forall text : str,
    trimmed (clean_text text) /\
    (forall c, In c (clean_text text) -> is_space c = true -> c = 32%N) /\
    (forall a x y t, clean_text text = a ++ x :: y :: t ->
                     is_space x = true -> is_space y = false).
Proof.
  intro text.
  destruct (clean_text_shape text) as [Ht Hs].
  split; [exact Ht|]. split.
  - intros c. now apply single_spaced_In with (b := false).
  - intros a x y t E. now apply single_spaced_no_pair with (b := false) (s := clean_text text) (a := a) (t := t).
Qed.

(** X2. Cleaning a cleaned text changes nothing. *)
Theorem clean_text_idempotent :
  forall text : str, clean_text (clean_text text) = clean_text text.
Proof.
  intro text.
  destruct (clean_text_shape text) as [Ht Hs].
  unfold clean_text at 1. destruct (clean_text text) as [|c r] eqn:E; [reflexivity|].
  rewrite (str_strip_of_trimmed _ Ht). now apply collapse_ws_of_single_spaced.
Qed.

Lemma str_strip_idempotent (s : str) : str_strip (str_strip s) = str_strip s.
Proof. apply str_strip_of_trimmed, str_strip_trimmed. Qed.

Lemma filter_map_fixed {A} (keep : A -> bool) (g : A -> A) (l : list A) :
  (forall x, g (g x) = g x) ->
  filter keep (map g (filter keep (map g l))) = filter keep (map g l).
Proof.
  intro Hg. induction l as [|x l IH]; simpl; [reflexivity|].
  destruct (keep (g x)) eqn:E; simpl; [|exact IH].
  rewrite Hg, E, IH. reflexivity.
Qed.

(** X3. Both scrapers read their links the same way: a list of links read
    back from its own output is unchanged; every link the forum scraper
    keeps the election scraper keeps too; and every link kept is a line of
    the file stripped of its surrounding whitespace, not empty, and not a
    comment. *)
Theorem read_links_fixed_point :
  forall lines : list str,
    let forum_links := Forum.read_links_from_file (Some lines) in
    let helios_links := Helios.read_links_from_file (Some lines) in
    Forum.read_links_from_file (Some forum_links) = forum_links /\
    Helios.read_links_from_file (Some helios_links) = helios_links /\
    (forall url, In url forum_links -> In url helios_links) /\
    (forall url, In url helios_links ->
       url <> [] /\ trimmed url /\ startswith (py "#") url = false /\
       exists line, In line lines /\ url = str_strip line).
Proof.
  intro lines. cbv zeta. unfold Forum.read_links_from_file, Helios.read_links_from_file.
  split; [apply filter_map_fixed, str_strip_idempotent|].
  split; [apply filter_map_fixed, str_strip_idempotent|].
  split.
  - intros url H. apply filter_In in H as [Hin Hkeep].
    apply andb_true_iff in Hkeep as [Hkeep _]. apply filter_In. now split.
  - intros url H. apply filter_In in H as [Hin Hkeep].
    apply in_map_iff in Hin as [line [<- Hline]].
    unfold is_link_line in Hkeep.
    destruct (str_strip line) as [|c t] eqn:E; [discriminate Hkeep|].
    rewrite <- E. split; [rewrite E; discriminate|].
    split; [apply str_strip_trimmed|].
    split; [rewrite E; now apply negb_true_iff in Hkeep|].
    exists line. now split.
Qed.

End TextProperties.

(** ** The crawl of the forum scraper *)

Section CrawlProperties.
Import Forum.







End CrawlProperties.

(** ** The login of the forum scraper *)

Section LoginProperties.
Import Forum.

Lemma guarded_send (q : request) (w : world) :
  guarded (send q) w
  = (Ok match net w (sent w) q with
        | Answer a => if http_error a then None else Some a
        | NetworkError => None
        end,
     after_send q w).
Proof.
  unfold guarded, try_except, bind, send, raise_for_status.
  destruct (net w (sent w) q) as [a|]; [|reflexivity].
  destruct (http_error a); reflexivity.
Qed.


(** A handshake that goes through and a verification that breaks. *)
Lemma login_crash_spec (username password : str) (w : world) :
  handshake_done username password w = true ->
  verification_breaks w = true ->
  exists w',
    login username password w = (Raise RequestException, w') /\
    length (requests (log w')) <= length (requests (log w)) + 4 /\
    written (log w') = written (log w).
Proof.
  intros Hdone Hbreak.
  destruct (login username password w) as [r w'] eqn:E.
  unfold handshake_done, login_form_of in Hdone. unfold login in E.
  unfold bind at 1 in E. unfold session_get at 1 in E. rewrite guarded_send in E.
  destruct (net w (sent w) (GET login_url)) as [loaded|]; [|discriminate Hdone].
  destruct (http_error loaded); [discriminate Hdone|].
  cbv zeta in E.
  destruct (find (py "form") (AttrEq (py "id") (py "kc-form-login")) (resp_soup loaded))
    as [login_form|]; [|discriminate Hdone].
  unfold bind at 1 in E. unfold session_post in E. rewrite guarded_send in E.
  cbn [after_send sent net] in E. unfold credentials_post in Hdone.
  destruct (net w (S (sent w)) _) as [submitted|]; [|discriminate Hdone].
  destruct (http_error submitted); [discriminate Hdone|].
  unfold bind, session_get, send in E. cbn [after_send sent net log] in E.
  unfold verification_breaks in Hbreak.
  destruct (net w (S (S (sent w))) (GET test_url)) as [test_response|].
  - destruct (registration_required (text test_response)); [discriminate Hbreak|].
    destruct (logout_present (text test_response)); [discriminate Hbreak|].
    cbn [after_send sent net log] in E.
    destruct (net w (S (S (S (sent w)))) (GET index_url)); [discriminate Hbreak|].
    injection E as <- <-. eexists. split; [reflexivity|].
    cbn [log after_send]. rewrite !requests_app, !written_app, !length_app.
    cbn [requests written length]. rewrite !app_nil_r. split; [lia | reflexivity].
  - injection E as <- <-. eexists. split; [reflexivity|].
    cbn [log after_send]. rewrite !requests_app, !written_app, !length_app.
    cbn [requests written length]. rewrite !app_nil_r. split; [lia | reflexivity].
Qed.

(** X7. Once the credentials are accepted, a verification request that gets
    no answer is not caught: [login] raises, [run] raises with it in the
    same state, after at most four requests, and no link is fetched nor any
    page written. *)
Theorem login_verification_crash :
  forall (username password : str) (links : option (list str)) (w : world),
    handshake_done username password w = true ->
    verification_breaks w = true ->
    fst (login username password w) = Raise RequestException /\
    run username password links w
    = (Raise RequestException, snd (login username password w)) /\
    length (requests (log (snd (run username password links w))))
    <= length (requests (log w)) + 4 /\
    written (log (snd (run username password links w))) = written (log w).
Proof.
  intros username password links w Hdone Hbreak.
  destruct (login_crash_spec username password w Hdone Hbreak)
    as (w' & Hlogin & Hreq & Hwr).
  unfold run, bind. rewrite Hlogin. cbn [fst snd]. repeat split; assumption.
Qed.

(** The identity provider accepts the credentials, then the forum is down. *)
Lemma login_verification_crash_witness :
  fst (login (py "user") (py "secret") Samples.forum_down_world)
  = Raise RequestException /\
  run (py "user") (py "secret") (Some [Samples.topic_url]) Samples.forum_down_world
  = (Raise RequestException,
     snd (login (py "user") (py "secret") Samples.forum_down_world)) /\
  length (requests (log (snd (run (py "user") (py "secret") (Some [Samples.topic_url])
                                  Samples.forum_down_world))))
  <= length (requests (log Samples.forum_down_world)) + 4 /\
  written (log (snd (run (py "user") (py "secret") (Some [Samples.topic_url])
                         Samples.forum_down_world)))
  = written (log Samples.forum_down_world).
Proof.
  apply (login_verification_crash (py "user") (py "secret") (Some [Samples.topic_url])
           Samples.forum_down_world); reflexivity.
Defined.

(** X22. [main] never raises. Without both credentials, from the
    configuration or typed in, it sends no request at all. With the
    configured credentials, a verification that breaks after an accepted
    handshake ends the program quietly, after at most four requests and
    with no page written. *)
Theorem forum_main_total :
  forall (config_username config_password typed_username typed_password : str)
         (links : option (list str)) (w : world),
    fst (main config_username config_password typed_username typed_password links w)
    = Ok tt /\
    ((config_username = [] \/ config_password = []) ->
     (str_strip typed_username = [] \/ str_strip typed_password = []) ->
     snd (main config_username config_password typed_username typed_password links w)
     = w) /\
    (config_username <> [] -> config_password <> [] ->
     handshake_done config_username config_password w = true ->
     verification_breaks w = true ->
     written (log (snd (main config_username config_password typed_username
                             typed_password links w)))
     = written (log w) /\
     length (requests (log (snd (main config_username config_password typed_username
                                      typed_password links w))))
     <= length (requests (log w)) + 4).
Proof.
  intros cu cp tu tp links w.
  assert (forall u p, fst (try_except (run u p links) (fun _ => ret tt) w) = Ok tt) as Hrun.
  { intros u p. unfold try_except. destruct (run u p links w) as [[[]|e] w']; reflexivity. }
  split; [|split].
  - unfold main.
    destruct cu as [|c1 cu], cp as [|c2 cp]; [| | |apply Hrun];
      (destruct (str_strip tu), (str_strip tp); try reflexivity; apply Hrun).
  - unfold main. intros Hconfig Htyped.
    destruct cu as [|c1 cu], cp as [|c2 cp];
      [| | |destruct Hconfig; discriminate];
      (destruct (str_strip tu), (str_strip tp); try reflexivity;
       destruct Htyped; discriminate).
  - intros Hu Hp Hdone Hbreak. unfold main.
    destruct cu as [|c1 cu]; [congruence|]. destruct cp as [|c2 cp]; [congruence|].
    destruct (login_crash_spec _ _ w Hdone Hbreak) as (w' & Hlogin & Hreq & Hwr).
    unfold try_except, run, bind. rewrite Hlogin. unfold ret. cbn [snd].
    split; assumption.
Qed.

Lemma form_get_put (k k' v : str) (d : list (str * str)) :
  form_get k (form_put k' v d) = if str_eqb k' k then Some v else form_get k d.
Proof.
  induction d as [|[k0 v0] d IH]; simpl; [reflexivity|].
  destruct (str_eqb k0 k') eqn:E; simpl.
  - apply str_eqb_eq in E. subst k0. now destruct (str_eqb k' k).
  - rewrite IH. destruct (str_eqb k0 k) eqn:E0; [|reflexivity].
    apply str_eqb_eq in E0. subst k0.
    destruct (str_eqb k' k) eqn:E1; [|reflexivity].
    apply str_eqb_eq in E1. subst k'. now rewrite str_eqb_refl in E.
Qed.

(** [d.update(h)], key by key: the last binding of [k] in [h] wins. *)
Lemma form_get_update (k : str) (h d : list (str * str)) :
  form_get k (fold_left (fun d kv => form_put (fst kv) (snd kv) d) h d)
  = fold_left (fun found kv => if str_eqb (fst kv) k then Some (snd kv) else found)
              h (form_get k d).
Proof.
  revert d. induction h as [|[k' v] h IH]; intro d; simpl; [reflexivity|].
  rewrite IH, form_get_put. reflexivity.
Qed.

Lemma form_put_keys (k v : str) (d : list (str * str)) :
  map fst (form_put k v d)
  = if existsb (fun k' => str_eqb k' k) (map fst d) then map fst d else map fst d ++ [k].
Proof.
  induction d as [|[k0 v0] d IH]; simpl; [reflexivity|].
  destruct (str_eqb k0 k) eqn:E; simpl; [reflexivity|].
  rewrite IH. now destruct (existsb _ (map fst d)).
Qed.

Lemma form_put_nodup (k v : str) (d : list (str * str)) :
  NoDup (map fst d) -> NoDup (map fst (form_put k v d)).
Proof.
  intro H. rewrite form_put_keys.
  destruct (existsb _ (map fst d)) eqn:E; [exact H|].
  apply NoDup_snoc; [exact H|].
  intro Hin. assert (existsb (fun k' => str_eqb k' k) (map fst d) = true) as C
    by (apply existsb_exists; exists k; split; [exact Hin | apply str_eqb_refl]).
  congruence.
Qed.

(** In a dictionary, the last binding of a key is its only one. *)
Lemma form_get_last (k : str) (d : list (str * str)) (found : option str) :
  NoDup (map fst d) ->
  fold_left (fun found kv => if str_eqb (fst kv) k then Some (snd kv) else found) d found
  = match form_get k d with
    | Some v => Some v
    | None => found
    end.
Proof.
  revert found. induction d as [|[k' v] d IH]; intros found H; simpl; [reflexivity|].
  inversion H as [|? ? Hnotin Hd]; subst. rewrite IH by exact Hd.
  destruct (str_eqb k' k) eqn:E; [|reflexivity].
  apply str_eqb_eq in E. subst k'.
  assert (form_get k d = None) as ->; [|reflexivity].
  clear -Hnotin. induction d as [|[k0 v0] d IH]; simpl; [reflexivity|].
  simpl in Hnotin. destruct (str_eqb k0 k) eqn:E.
  - apply str_eqb_eq in E. tauto.
  - apply IH. tauto.
Qed.

Lemma hidden_fields_fold (k : str) (inputs : list node) :
  forall d : list (str * str),
    NoDup (map fst d) ->
    let fields :=
      fold_left
        (fun hidden_fields input_tag =>
           match get (py "name") input_tag with
           | Some (c :: name) =>
               let value := match get (py "value") input_tag with
                            | Some v => v
                            | None => []
                            end in
               form_put (c :: name) value hidden_fields
           | _ => hidden_fields
           end) inputs d in
    NoDup (map fst fields) /\
    form_get k fields
    = fold_left
        (fun found input_tag =>
           match get (py "name") input_tag with
           | Some (c :: name) =>
               if str_eqb (c :: name) k
               then Some match get (py "value") input_tag with
                         | Some v => v
                         | None => []
                         end
               else found
           | _ => found
           end) inputs (form_get k d).
Proof.
  induction inputs as [|input_tag inputs IH]; intros d Hd; cbn [fold_left];
    [split; [exact Hd | reflexivity]|].
  destruct (get (py "name") input_tag) as [[|c name]|]; try (apply IH; exact Hd).
  cbv zeta.
  destruct (IH (form_put (c :: name)
                         match get (py "value") input_tag with
                         | Some v => v
                         | None => []
                         end d) (form_put_nodup _ _ _ Hd)) as [Hn Hg].
  split; [exact Hn|]. cbv zeta in Hg. rewrite Hg, form_get_put. reflexivity.
Qed.

(** X8. The form data [login] submits, key by key: a hidden input of the
    login form gives its value (the last one of that name, the empty string
    when it has no value), also under the names [username] and [password];
    any other key is the user name, the password, or absent. *)
Theorem login_data_fields :
  forall (username password : str) (login_form : node) (k : str),
    form_get k (login_data_of username password (hidden_fields_of login_form))
    = match hidden_value k login_form with
      | Some v => Some v
      | None =>
          if str_eqb (py "username") k then Some username
          else if str_eqb (py "password") k then Some password
          else None
      end.
Proof.
  intros username password login_form k.
  unfold login_data_of. rewrite form_get_update.
  destruct (hidden_fields_fold k
              (find_all (py "input") (AttrEq (py "type") (py "hidden")) login_form)
              [] (NoDup_nil _)) as [Hn Hg].
  cbv zeta in Hn, Hg. fold (hidden_fields_of login_form) in Hn, Hg.
  rewrite form_get_last by exact Hn. rewrite Hg.
  change (form_get k []) with (@None str). fold (hidden_value k login_form).
  destruct (hidden_value k login_form); reflexivity.
Qed.

End LoginProperties.

(** ** The fields of a post record *)

Section RecordProperties.
Import ForumXMLParser.

Lemma keys_set_incl (allowed : list String.string) (k : String.string) (v : value)
  (d : dict) :
  In k allowed -> incl (keys d) allowed -> incl (keys (dict_set k v d)) allowed.
Proof.
  intros Hk Hd. rewrite keys_set. destruct (dict_has k d); [exact Hd|].
  apply incl_app; [exact Hd|]. intros x [<-|[]]. exact Hk.
Qed.

Lemma keys_update_incl (allowed : list String.string) (d more : dict) :
  incl (keys d) allowed -> incl (keys more) allowed ->
  incl (keys (dict_update d more)) allowed.
Proof.
  unfold dict_update. revert d. induction more as [|[k v] more IH]; simpl; intros d Hd Hm.
  - exact Hd.
  - apply IH.
    + apply keys_set_incl; [apply Hm; now left | exact Hd].
    + intros x Hx. apply Hm. now right.
Qed.

Ltac in_keys := cbv [In user_keys post_keys]; tauto.

Lemma labelled_field_keys (key : String.string) (label : str) (dd : option node)
  (d : dict) :
  In key user_keys -> incl (keys d) user_keys ->
  incl (keys (labelled_field key label dd d)) user_keys.
Proof.
  intros Hk Hd. unfold labelled_field. destruct dd as [dd|]; [|exact Hd].
  cbv zeta. destruct (str_contains label (get_text dd)); [|exact Hd].
  now apply keys_set_incl.
Qed.

Lemma counter_field_keys (key : String.string) (dd : option node) (d : dict) :
  In key user_keys -> incl (keys d) user_keys ->
  incl (keys (counter_field key dd d)) user_keys.
Proof.
  intros Hk Hd. unfold counter_field. destruct dd as [dd|]; [|exact Hd].
  destruct (find (py "a") AnyAttrs dd); [|exact Hd]. now apply keys_set_incl.
Qed.

Ltac keys_step allowed :=
  first
    [ apply counter_field_keys; [in_keys|]
    | apply labelled_field_keys; [in_keys|]
    | apply keys_set_incl; [in_keys|]
    | match goal with
      | |- incl (keys (match ?x with Some _ => _ | None => _ end)) _ => destruct x
      | |- incl (keys (if ?b then _ else _)) _ => destruct b
      | |- incl (keys (let (_, _) := ?p in _)) _ => destruct p
      | |- incl (keys []) _ => intros ? []
      end ].

Lemma extract_user_info_keys (post_div : node) :
  incl (keys (extract_user_info post_div)) user_keys.
Proof. unfold extract_user_info. repeat keys_step user_keys. Qed.

Lemma set_default_keys (k : String.string) (v : value) (d : dict) :
  In k post_keys -> incl (keys d) post_keys -> incl (keys (set_default k v d)) post_keys.
Proof.
  intros Hk Hd. unfold set_default. destruct (dict_has k d); [exact Hd|].
  now apply keys_set_incl.
Qed.

Lemma extract_post_content_keys (post_div : node) :
  incl (keys (extract_post_content post_div)) post_keys.
Proof.
  unfold extract_post_content.
  destruct (find (py "div") (ClassIn [py "postbody"]) post_div) as [pb|];
    [|repeat keys_step post_keys].
  repeat (apply set_default_keys; [in_keys|]).
  unfold set_thanks, set_content, set_datetime, set_title.
  repeat keys_step post_keys.
Qed.

Lemma dict_get_absent (allowed : list String.string) (k : String.string) (d : dict) :
  incl (keys d) allowed -> ~ In k allowed -> dict_get k d = None.
Proof. intros Hd Hk. apply dict_get_None. intro H. apply Hk, Hd, H. Qed.

Lemma labelled_field_nodup (key : String.string) (label : str) (dd : option node)
  (d : dict) :
  NoDup (keys d) -> NoDup (keys (labelled_field key label dd d)).
Proof.
  intro H. unfold labelled_field. destruct dd as [dd|]; [|exact H].
  cbv zeta. destruct (str_contains label (get_text dd)); [apply dict_set_nodup|]; exact H.
Qed.

Lemma counter_field_nodup (key : String.string) (dd : option node) (d : dict) :
  NoDup (keys d) -> NoDup (keys (counter_field key dd d)).
Proof.
  intro H. unfold counter_field. destruct dd as [dd|]; [|exact H].
  destruct (find (py "a") AnyAttrs dd); [apply dict_set_nodup|]; exact H.
Qed.

Lemma extract_user_info_nodup (post_div : node) :
  NoDup (keys (extract_user_info post_div)).
Proof.
  unfold extract_user_info.
  repeat first
    [ apply counter_field_nodup
    | apply labelled_field_nodup
    | apply dict_set_nodup
    | match goal with
      | |- NoDup (keys (match ?x with Some _ => _ | None => _ end)) => destruct x
      | |- NoDup (keys []) => constructor
      end ].
Qed.

Ltac other_key Hk :=
  let H := fresh "H" in
  intro H; revert Hk H; cbv [In user_keys post_keys]; intuition (subst; discriminate).

Lemma post_record_user_key (forum_id : str) (post_div : node) (k : String.string) :
  In k user_keys ->
  dict_get k (post_record forum_id post_div) = dict_get k (extract_user_info post_div).
Proof.
  intro Hk. unfold post_record. cbv zeta.
  rewrite !dict_get_update
    by (apply extract_user_info_nodup || apply extract_post_content_nodup).
  rewrite (dict_get_absent post_keys k)
    by (apply extract_post_content_keys || other_key Hk).
  destruct (dict_get k (extract_user_info post_div)) eqn:E; [reflexivity|].
  cbn [dict_get]. destruct (String.eqb "forum_id" k) eqn:F; [|reflexivity].
  apply String.eqb_eq in F. subst k. revert Hk. cbv [In user_keys].
  intuition discriminate.
Qed.

Lemma post_record_post_key (forum_id : str) (post_div : node) (k : String.string) :
  In k post_keys ->
  dict_get k (post_record forum_id post_div) = dict_get k (extract_post_content post_div).
Proof.
  intro Hk. unfold post_record. cbv zeta.
  rewrite !dict_get_update
    by (apply extract_user_info_nodup || apply extract_post_content_nodup).
  destruct (dict_get k (extract_post_content post_div)) eqn:E; [reflexivity|].
  rewrite (dict_get_absent user_keys k)
    by (apply extract_user_info_keys || other_key Hk).
  cbn [dict_get]. destruct (String.eqb "forum_id" k) eqn:F; [|reflexivity].
  apply String.eqb_eq in F. subst k. revert Hk. cbv [In post_keys].
  intuition discriminate.
Qed.

(** X9. The record of a post: its [forum_id] is the one given, no key
    occurs twice, every key is one of the sixteen columns, the author's
    fields are those of [extract_user_info] and the post's fields those of
    [extract_post_content]. *)
Theorem post_record_fields :
  forall (forum_id : str) (post_div : node),
    dict_get "forum_id" (post_record forum_id post_div) = Some (VStr forum_id) /\
    NoDup (keys (post_record forum_id post_div)) /\
    incl (keys (post_record forum_id post_div)) columns /\
    (forall k, In k user_keys ->
       dict_get k (post_record forum_id post_div)
       = dict_get k (extract_user_info post_div)) /\
    (forall k, In k post_keys ->
       dict_get k (post_record forum_id post_div)
       = dict_get k (extract_post_content post_div)).
Proof.
  intros forum_id post_div.
  split; [|split; [|split; [|split]]];
    [| | |intros k; apply post_record_user_key | intros k; apply post_record_post_key].
  - unfold post_record. cbv zeta.
    rewrite !dict_get_update
      by (apply extract_user_info_nodup || apply extract_post_content_nodup).
    rewrite (dict_get_absent post_keys) by
      (apply extract_post_content_keys || (cbv [In post_keys]; intuition discriminate)).
    rewrite (dict_get_absent user_keys) by
      (apply extract_user_info_keys || (cbv [In user_keys]; intuition discriminate)).
    reflexivity.
  - apply dict_update_nodup, dict_update_nodup. repeat constructor. intros [].
  - apply keys_update_incl; [apply keys_update_incl|].
    + intros x [<-|[]]. now left.
    + intros x Hx. apply extract_user_info_keys in Hx. revert Hx.
      cbv [In user_keys columns]. tauto.
    + intros x Hx. apply extract_post_content_keys in Hx. revert Hx.
      cbv [In post_keys columns]. tauto.
Qed.

(** *** The identifiers of a post and of its author *)

Lemma replace_char_filter (c : N) (s : str) :
  str_replace [c] [] s = filter (fun x => negb (x =? c)%N) s.
Proof.
  unfold str_replace. induction s as [|x s IH]; [reflexivity|].
  cbn [replace_from startswith length Nat.sub filter app].
  rewrite N.eqb_sym. destruct (x =? c)%N; cbn [andb negb]; now rewrite IH.
Qed.

(** X10. The [post_id] of a record is the [id] attribute of the post
    container with every letter [p] removed, not only a leading one; it is
    empty when the attribute is missing. *)
Theorem post_id_drops_every_p :
  forall (forum_id : str) (post_div : node),
    dict_get "post_id" (post_record forum_id post_div)
    = Some (VStr (filter (fun c => negb (c =? 0x70)%N)
                         match get (py "id") post_div with
                         | Some post_id => post_id
                         | None => []
                         end)).
Proof.
  intros forum_id post_div.
  rewrite post_record_post_key by (cbv [In post_keys]; tauto).
  assert (forall d : dict,
            dict_get "post_id"
              match find (py "div") (ClassIn [py "postbody"]) post_div with
              | None => d
              | Some postbody_div =>
                  set_default "thanks_count" (VInt 0)
                    (set_default "thanks_users" (VStr [])
                       (set_thanks postbody_div
                          (set_content postbody_div
                             (set_datetime postbody_div (set_title postbody_div d)))))
              end = dict_get "post_id" d) as Hframe.
  { intro d. destruct (find _ _ post_div) as [pb|]; [|reflexivity].
    rewrite !dict_get_set_default. cbn [String.eqb Ascii.eqb Bool.eqb].
    now rewrite set_thanks_other, set_content_other, set_datetime_other,
      set_title_other by discriminate. }
  unfold extract_post_content. cbv zeta. rewrite Hframe, dict_get_set_same.
  destruct (get (py "id") post_div) as [[|c i]|]; try reflexivity.
  change (py "p") with [0x70%N]. now rewrite replace_char_filter.
Qed.

(** [str.split], piece by piece *)

Lemma split_from_join (sep : str) (s : str) :
  sep <> [] ->
  forall skip, str_join sep (fst (split_from sep skip s) :: snd (split_from sep skip s))
               = skipn skip s.
Proof.
  intro Hsep. induction s as [|c t IH]; intro skip.
  - destruct skip; reflexivity.
  - destruct skip as [|k]; cbn [split_from skipn]; [|apply IH].
    destruct (startswith sep (c :: t)) eqn:E.
    + specialize (IH (length sep - 1)).
      destruct (split_from sep (length sep - 1) t) as [p ps]. cbn [fst snd] in *.
      change (str_join sep ([] :: p :: ps)) with ([] ++ sep ++ str_join sep (p :: ps)).
      rewrite IH. cbn [app].
      destruct (startswith_inv _ _ E) as [rest Hrest].
      destruct sep as [|x sep']; [congruence|].
      cbn [length Nat.sub]. rewrite Nat.sub_0_r.
      injection Hrest as -> ->. rewrite skipn_app, skipn_all, Nat.sub_diag. reflexivity.
    + specialize (IH 0).
      destruct (split_from sep 0 t) as [p ps]. cbn [fst snd skipn] in *.
      rewrite <- IH. destruct ps; reflexivity.
Qed.

Lemma split_from_last (sep : str) (s : str) :
  sep <> [] ->
  forall skip,
    str_contains sep (last (fst (split_from sep skip s) :: snd (split_from sep skip s)) [])
    = false.
Proof.
  intro Hsep. induction s as [|c t IH]; intro skip.
  - destruct skip; cbn; destruct sep; [congruence | reflexivity | congruence | reflexivity].
  - destruct skip as [|k]; cbn [split_from]; [|apply IH].
    destruct (startswith sep (c :: t)) eqn:E.
    + specialize (IH (length sep - 1)).
      destruct (split_from sep (length sep - 1) t) as [p ps]. exact IH.
    + pose proof (split_from_join sep t Hsep 0) as Hjoin. specialize (IH 0).
      destruct (split_from sep 0 t) as [p ps]. cbn [fst snd skipn] in *.
      destruct ps as [|q ps]; [|exact IH].
      cbn [last str_join] in *. subst p.
      cbn [str_contains]. now rewrite E, IH.
Qed.

Lemma str_join_last (sep p q : str) (ps : list str) :
  exists before, str_join sep (p :: q :: ps) = before ++ sep ++ last (q :: ps) [].
Proof.
  revert p q. induction ps as [|r ps IH]; intros p q.
  - exists p. reflexivity.
  - destruct (IH q r) as [before E].
    exists (p ++ sep ++ before).
    change (str_join sep (p :: q :: r :: ps)) with (p ++ sep ++ str_join sep (q :: r :: ps)).
    rewrite E. change (last (q :: r :: ps) []) with (last (r :: ps) (@nil N)).
    now rewrite <- !app_assoc.
Qed.

(** [s.split(sep)[-1]]: what follows the last separator. *)
Lemma str_split_last (sep s : str) :
  sep <> [] ->
  str_contains sep (last (str_split sep s) []) = false /\
  (str_contains sep s = true ->
   exists before, s = before ++ sep ++ last (str_split sep s) []) /\
  (str_contains sep s = false -> last (str_split sep s) [] = s).
Proof.
  intro Hsep. unfold str_split.
  pose proof (split_from_join sep s Hsep 0) as Hjoin.
  pose proof (split_from_last sep s Hsep 0) as Hlast.
  destruct (split_from sep 0 s) as [p ps]. cbn [fst snd skipn] in *.
  split; [exact Hlast|]. subst s.
  destruct ps as [|q ps].
  - cbn [last str_join] in *. rewrite Hlast. split; [discriminate | reflexivity].
  - destruct (str_join_last sep p q ps) as [before E].
    change (last (p :: q :: ps) []) with (last (q :: ps) (@nil N)) in *.
    split; [intros _; now exists before|].
    intro H. assert (str_contains sep (str_join sep (p :: q :: ps)) = true) as C
      by (apply str_contains_iff; eauto).
    congruence.
Qed.

Lemma labelled_field_other (k key : String.string) (label : str) (dd : option node)
  (d : dict) :
  k <> key -> dict_get k (labelled_field key label dd d) = dict_get k d.
Proof.
  intro H. unfold labelled_field. destruct dd as [dd|]; [|reflexivity].
  cbv zeta. destruct (str_contains label (get_text dd)); [|reflexivity].
  now apply dict_get_set_other.
Qed.

Lemma counter_field_other (k key : String.string) (dd : option node) (d : dict) :
  k <> key -> dict_get k (counter_field key dd d) = dict_get k d.
Proof.
  intro H. unfold counter_field. destruct dd as [dd|]; [|reflexivity].
  destruct (find (py "a") AnyAttrs dd); [|reflexivity].
  now apply dict_get_set_other.
Qed.

(** The author's name and identifier, by the link they are read from. *)
Lemma extract_user_info_author (post_div : node) :
  match username_link_of post_div with
  | Some username_link =>
      let href := match get (py "href") username_link with
                  | Some h => h
                  | None => []
                  end in
      dict_get "username" (extract_user_info post_div)
      = Some (VStr (clean_text (get_text username_link))) /\
      dict_get "user_id" (extract_user_info post_div)
      = Some (VStr (if str_contains (py "u=") href
                    then last (str_split (py "u=") href) []
                    else []))
  | None =>
      dict_get "username" (extract_user_info post_div) = None /\
      dict_get "user_id" (extract_user_info post_div) = None
  end.
Proof.
  unfold username_link_of, extract_user_info.
  destruct (find (py "dl") (ClassIn [py "postprofile"]) post_div) as [profile_div|];
    [|split; reflexivity].
  rewrite !counter_field_other, !labelled_field_other by discriminate.
  destruct (find (py "dd") (ClassIn [py "profile-posts"]) profile_div) as [posts_dd|];
    [destruct (find (py "a") AnyAttrs posts_dd)|];
    destruct (find (py "dd") (ClassIn [py "profile-rank"]) profile_div);
    rewrite ?dict_get_set_other by discriminate;
    (destruct (match find (py "a") (ClassIn [py "username-coloured"]) profile_div with
               | Some a => Some a
               | None => find (py "a") (ClassIn [py "username"]) profile_div
               end) as [username_link|]; [|split; reflexivity]);
    cbv zeta; rewrite dict_get_set_same, dict_get_set_other, dict_get_set_same
      by discriminate; split; reflexivity.
Qed.

(** X11. The [user_id] of a record is what follows the last [u=] of the
    author link's address, whatever that is; it holds no [u=] itself, and it
    is empty when the address has no [u=]. *)
Theorem user_id_after_last_marker :
  forall (forum_id : str) (post_div username_link : node) (href : str),
    username_link_of post_div = Some username_link ->
    get (py "href") username_link = Some href ->
    exists user_id,
      dict_get "user_id" (post_record forum_id post_div) = Some (VStr user_id) /\
      str_contains (py "u=") user_id = false /\
      (str_contains (py "u=") href = true ->
       exists before, href = before ++ py "u=" ++ user_id) /\
      (str_contains (py "u=") href = false -> user_id = []).
Proof.
  intros forum_id post_div username_link href Hlink Hhref.
  pose proof (extract_user_info_author post_div) as H.
  rewrite Hlink in H. cbv zeta in H. rewrite Hhref in H. destruct H as [_ H].
  rewrite post_record_user_key by (cbv [In user_keys]; tauto). rewrite H.
  destruct (str_split_last (py "u=") href) as (Hlast & Hsome & _); [discriminate|].
  destruct (str_contains (py "u=") href) eqn:E.
  - eexists. split; [reflexivity|]. split; [exact Hlast|].
    split; [exact Hsome | discriminate].
  - exists []. repeat split; try reflexivity. discriminate.
Qed.

(** The sample post: the author's link ends in [u=42]. *)
Lemma user_id_after_last_marker_witness :
  exists user_id,
    dict_get "user_id" (post_record (py "47593") Samples.full_post) = Some (VStr user_id) /\
    str_contains (py "u=") user_id = false /\
    (str_contains (py "u=") (py "./memberlist.php?mode=viewprofile&u=42") = true ->
     exists before, py "./memberlist.php?mode=viewprofile&u=42"
                    = before ++ py "u=" ++ user_id) /\
    (str_contains (py "u=") (py "./memberlist.php?mode=viewprofile&u=42") = false ->
     user_id = []).
Proof.
  apply (user_id_after_last_marker (py "47593") Samples.full_post
           Samples.full_username_link (py "./memberlist.php?mode=viewprofile&u=42"));
    reflexivity.
Defined.

End RecordProperties.

(** ** The records and the title of a voter list *)

Section VoteTableProperties.
Import Votes.




(** *** The page title *)

Lemma split_head (c : N) (s : str) :
  exists rest,
    s = fst (split_from [c] 0 s) ++ rest /\
    ~ In c (fst (split_from [c] 0 s)) /\
    (rest = [] \/ exists r, rest = c :: r).
Proof.
  induction s as [|x s (rest & E & Hn & Hrest)].
  - exists []. repeat split; auto.
  - cbn [split_from startswith]. destruct (c =? x)%N eqn:C.
    + apply N.eqb_eq in C. subst x. cbn [andb fst].
      exists (c :: s). repeat split; [tauto | right; now exists s].
    + cbn [andb]. destruct (split_from [c] 0 s) as [p ps]. cbn [fst] in *.
      exists rest. split; [cbn [app]; now f_equal|]. split; [|exact Hrest].
      apply N.eqb_neq in C. intros [H|H]; [congruence | tauto].
Qed.

Lemma lstrip_by_In (drop : N -> bool) (c : N) (s : str) :
  In c (lstrip_by drop s) -> In c s.
Proof.
  destruct (lstrip_by_suffix drop s) as [pre E]. intro H. rewrite E.
  apply in_or_app. now right.
Qed.

Lemma str_strip_In (c : N) (s : str) : In c (str_strip s) -> In c s.
Proof.
  unfold str_strip, rstrip_by. intro H.
  apply in_rev, lstrip_by_In, in_rev in H. now apply lstrip_by_In in H.
Qed.

(** X13. The title of a page is [Unknown] without a title heading;
    otherwise it is the heading's stripped text up to its first em-dash,
    stripped again. It never holds an em-dash and never starts or ends with
    whitespace. *)
Theorem page_title_shape :
  forall soup : node,
    trimmed (page_title soup) /\
    ~ In 0x2014%N (page_title soup) /\
    match find (py "h3") (ClassIn [py "title"]) soup with
    | Some title_tag =>
        exists head rest,
          get_text_strip title_tag = head ++ rest /\
          ~ In 0x2014%N head /\
          (rest = [] \/ exists r, rest = EM_DASH ++ r) /\
          page_title soup = str_strip head
    | None => page_title soup = py "Unknown"
    end.
Proof.
  intro soup. unfold page_title.
  destruct (find (py "h3") (ClassIn [py "title"]) soup) as [title_tag|].
  - cbv zeta. unfold str_split. change EM_DASH with [0x2014%N].
    destruct (split_head 0x2014 (get_text_strip title_tag)) as (rest & E & Hn & Hrest).
    destruct (split_from [0x2014%N] 0 (get_text_strip title_tag)) as [p ps].
    cbn [hd fst] in *.
    split; [apply str_strip_trimmed|].
    split; [intro H; apply Hn; now apply str_strip_In|].
    exists p, rest. repeat split; assumption.
  - split; [split; reflexivity|]. split; [|reflexivity].
    vm_compute. intuition discriminate.
Qed.

End VoteTableProperties.

(** ** The run of the election scraper *)

Section HeliosRunProperties.
Import Helios.


(** *** The page URLs *)

Lemma re_sub_no_match (lit repl s : str) :
  re_search_lit_digits lit s = None -> re_sub_lit_digits lit repl s = s.
Proof.
  unfold re_sub_lit_digits. induction s as [|c s IH]; [reflexivity|].
  cbn [re_search_lit_digits re_sub_from].
  destruct (match_lit_digits lit (c :: s)); [discriminate|].
  intro H. now rewrite IH.
Qed.

Lemma digits_of_uint_inj (a b : Decimal.uint) :
  digits_of_uint a = digits_of_uint b -> a = b.
Proof.
  revert b. induction a; intros b H; destruct b; try discriminate H;
    try reflexivity; cbn in H; injection H as H; f_equal; now apply IHa.
Qed.

Lemma str_of_nat_inj (n m : nat) : str_of_nat n = str_of_nat m -> n = m.
Proof.
  unfold str_of_nat. intro H. apply digits_of_uint_inj in H.
  apply (f_equal Nat.of_uint) in H. now rewrite !DecimalNat.Unsigned.of_to in H.
Qed.

(** X15. The page URLs of a base URL. Without [page=] in it, the number is
    appended and different numbers give different URLs. With a [page=] that
    no digit follows, nothing is replaced: every page number gives the base
    URL itself. *)
Theorem page_url_variants :
  forall (base_url : str),
    (str_contains (py "page=") base_url = false ->
     forall n m, page_url base_url n = page_url base_url m -> n = m) /\
    (str_contains (py "page=") base_url = true ->
     re_search_lit_digits (py "page=") base_url = None ->
     forall n, page_url base_url n = base_url).
Proof.
  intro base_url. unfold page_url. split.
  - intros -> n m H. apply app_inv_head in H. apply app_inv_head in H.
    apply app_inv_head in H. now apply str_of_nat_inj.
  - intros -> Hnone n. now apply re_sub_no_match.
Qed.

(** *** The whole run *)




End HeliosRunProperties.

(** ** The merge scripts *)

Section MergeProperties.
Import Merge.

(** *** Grouping *)

Lemma str_eqb_sym (a b : str) : str_eqb a b = str_eqb b a.
Proof.
  destruct (str_eqb a b) eqn:E, (str_eqb b a) eqn:F; try reflexivity.
  - apply str_eqb_eq in E. subst. now rewrite str_eqb_refl in F.
  - apply str_eqb_eq in F. subst. now rewrite str_eqb_refl in E.
Qed.

Lemma group_append_keys (k name : str) (groups : list (str * list str)) :
  map fst (group_append k name groups)
  = if existsb (fun k' => str_eqb k' k) (map fst groups)
    then map fst groups else map fst groups ++ [k].
Proof.
  induction groups as [|[k' files] groups IH]; simpl; [reflexivity|].
  destruct (str_eqb k' k); simpl; [reflexivity|].
  rewrite IH. now destruct (existsb _ (map fst groups)).
Qed.

Lemma group_append_In (k name k0 : str) (files0 : list str)
  (groups : list (str * list str)) :
  NoDup (map fst groups) ->
  In (k0, files0) (group_append k name groups) ->
  (k0 = k /\ (In (k, removelast files0) groups \/
              (~ In k (map fst groups) /\ removelast files0 = [])) /\
   files0 = removelast files0 ++ [name]) \/
  (k0 <> k /\ In (k0, files0) groups).
Proof.
  induction groups as [|[k' files] groups IH]; simpl; intros Hnd Hin.
  - destruct Hin as [Hin|[]]. injection Hin as <- <-. left.
    split; [reflexivity|]. split; [right; split; [tauto | reflexivity] | reflexivity].
  - inversion Hnd as [|? ? Hnotin Hnd']; subst.
    destruct (str_eqb k' k) eqn:E.
    + apply str_eqb_eq in E. subst k'. destruct Hin as [Hin|Hin].
      * injection Hin as <- <-. left. rewrite removelast_last. now repeat split; auto.
      * right. split; [|now right].
        intros ->. apply Hnotin. apply in_map_iff. now exists (k, files0).
    + assert (k' <> k) as Hne by (intros ->; now rewrite str_eqb_refl in E).
      destruct Hin as [Hin|Hin].
      * injection Hin as <- <-. right. split; [exact Hne | now left].
      * destruct (IH Hnd' Hin) as [(-> & Hold & Hlast)|(Hne0 & Hold)].
        -- left. split; [reflexivity|]. split; [|exact Hlast].
           destruct Hold as [Hold|[Hk Hnil]]; [left; now right|].
           right. split; [|exact Hnil]. intros [H|H]; [congruence | tauto].
        -- right. split; [exact Hne0 | now right].
Qed.

Lemma group_append_has (k name : str) (groups : list (str * list str)) :
  In k (map fst (group_append k name groups)) /\
  (forall k0, In k0 (map fst groups) -> In k0 (map fst (group_append k name groups))).
Proof.
  rewrite group_append_keys.
  destruct (existsb _ (map fst groups)) eqn:E.
  - split; [|auto]. apply existsb_exists in E as [k' [Hk' Heq]].
    apply str_eqb_eq in Heq. now subst.
  - split; [apply in_or_app; right; now left | intros; apply in_or_app; now left].
Qed.

Lemma group_append_nodup (k name : str) (groups : list (str * list str)) :
  NoDup (map fst groups) -> NoDup (map fst (group_append k name groups)).
Proof.
  intro H. rewrite group_append_keys.
  destruct (existsb _ (map fst groups)) eqn:E; [exact H|].
  apply NoDup_snoc; [exact H|]. intro Hin.
  assert (existsb (fun k' => str_eqb k' k) (map fst groups) = true) as C
    by (apply existsb_exists; exists k; split; [exact Hin | apply str_eqb_refl]).
  congruence.
Qed.

Lemma in_group_eq (group_of : str -> option str) (k name : str) :
  in_group group_of k name = true <-> group_of name = Some k.
Proof.
  unfold in_group. destruct (group_of name) as [k'|]; [|split; discriminate].
  rewrite str_eqb_eq. split; congruence.
Qed.

(** The groups once the names [seen] have gone through the loop. *)
Lemma group_files_from (group_of : str -> option str) (names : list str) :
  forall (seen : list str) (groups : list (str * list str)),
    NoDup (map fst groups) ->
    (forall k files, In (k, files) groups ->
       files <> [] /\ files = filter (in_group group_of k) seen) ->
    (forall name k, In name seen -> group_of name = Some k -> In k (map fst groups)) ->
    let result :=
      fold_left (fun groups name =>
                   match group_of name with
                   | Some k => group_append k name groups
                   | None => groups
                   end) names groups in
    NoDup (map fst result) /\
    (forall k files, In (k, files) result ->
       files <> [] /\ files = filter (in_group group_of k) (seen ++ names)) /\
    (forall name k, In name (seen ++ names) -> group_of name = Some k ->
       In k (map fst result)).
Proof.
  induction names as [|name names IH]; intros seen groups Hnd Hfiles Hkeys; cbn [fold_left].
  - cbv zeta. rewrite app_nil_r. auto.
  - replace (seen ++ name :: names) with ((seen ++ [name]) ++ names)
      by (rewrite <- app_assoc; reflexivity).
    apply IH.
    + destruct (group_of name); [now apply group_append_nodup | exact Hnd].
    + intros k files Hin. rewrite filter_app. cbn [filter].
      destruct (group_of name) as [k1|] eqn:G.
      * destruct (group_append_In _ _ _ _ _ Hnd Hin) as [(-> & Hold & Hlast)|(Hne & Hold)].
        -- assert (in_group group_of k1 name = true) as -> by now apply in_group_eq.
           split; [rewrite Hlast; now destruct (removelast files)|].
           rewrite Hlast at 1. f_equal.
           destruct Hold as [Hold|[Hk Hnil]]; [now apply Hfiles|].
           rewrite Hnil. symmetry.
           destruct (filter (in_group group_of k1) seen) as [|n ns] eqn:F; [reflexivity|].
           exfalso. apply Hk. assert (In n (n :: ns)) as Hn by now left.
           rewrite <- F in Hn. apply filter_In in Hn as [Hn1 Hn2].
           apply in_group_eq in Hn2. eauto.
        -- assert (in_group group_of k name = false) as ->.
           { destruct (in_group group_of k name) eqn:C; [|reflexivity].
             apply in_group_eq in C. congruence. }
           rewrite app_nil_r. now apply Hfiles.
      * assert (in_group group_of k name = false) as ->
          by (unfold in_group; now rewrite G).
        rewrite app_nil_r. now apply Hfiles.
    + intros n k Hn Hg. apply in_app_or in Hn as [Hn|[<-|[]]].
      * specialize (Hkeys n k Hn Hg).
        destruct (group_of name); [now apply (proj2 (group_append_has _ _ _)) | exact Hkeys].
      * rewrite Hg. apply (proj1 (group_append_has _ _ _)).
Qed.

Lemma group_files_spec (group_of : str -> option str) (names : list str) :
  NoDup (map fst (group_files group_of names)) /\
  (forall k files, In (k, files) (group_files group_of names) ->
     files <> [] /\ files = filter (in_group group_of k) names) /\
  (forall name k, In name names -> group_of name = Some k ->
     In k (map fst (group_files group_of names))).
Proof.
  unfold group_files.
  apply (group_files_from group_of names [] []); [constructor | intros ? ? [] | intros ? ? []].
Qed.

(** *** Sorting *)

Lemma insert_by_spec (k : Z) (f : str) (l : list (Z * str)) :
  StronglySorted by_key l ->
  StronglySorted by_key (insert_by k f l) /\
  (forall x, In x (insert_by k f l) <-> (k, f) = x \/ In x l) /\
  (forall z, filter (fun kf => (fst kf =? z)%Z) (insert_by k f l)
             = filter (fun kf => (fst kf =? z)%Z) l
               ++ (if (k =? z)%Z then [(k, f)] else [])).
Proof.
  induction l as [|[k' f'] l IH]; intro Hs.
  - cbn. split; [repeat constructor|]. split; [intro x; tauto|].
    intro z. now destruct (k =? z)%Z.
  - inversion Hs as [|? ? Hs' Hall]; subst. destruct (IH Hs') as (IHs & IHin & IHf).
    cbn [insert_by]. destruct (k' <=? k)%Z eqn:E.
    + apply Z.leb_le in E. split; [|split].
      * constructor; [exact IHs|]. apply Forall_forall. intros x Hx.
        apply IHin in Hx as [<-|Hx]; [exact E|].
        rewrite Forall_forall in Hall. now apply Hall.
      * intro x. cbn [In]. rewrite IHin. tauto.
      * intro z. cbn [filter fst]. rewrite IHf.
        destruct (k' =? z)%Z; [reflexivity | reflexivity].
    + apply Z.leb_gt in E. split; [|split].
      * constructor; [exact Hs|]. constructor; [unfold by_key; cbn; lia|].
        rewrite Forall_forall in Hall |- *. intros x Hx. specialize (Hall x Hx).
        unfold by_key in *. cbn in *. lia.
      * intro x. cbn [In]. tauto.
      * intro z. cbn [filter fst]. destruct (k =? z)%Z eqn:Ez.
        -- apply Z.eqb_eq in Ez. subst z.
           assert ((k' =? k)%Z = false) as -> by (apply Z.eqb_neq; lia).
           assert (filter (fun kf : Z * str => (fst kf =? k)%Z) l = []) as ->.
           { clear -Hall E. induction l as [|x l IHl]; [reflexivity|].
             inversion Hall; subst. cbn [filter].
             assert ((fst x =? k)%Z = false) as ->
               by (apply Z.eqb_neq; unfold by_key in *; cbn in *; lia).
             now apply IHl. }
           reflexivity.
        -- now rewrite app_nil_r.
Qed.

Lemma sort_from_spec (l : list (Z * str)) :
  forall sorted : list (Z * str),
    StronglySorted by_key sorted ->
    let result := fold_left (fun sorted kf => insert_by (fst kf) (snd kf) sorted) l sorted in
    StronglySorted by_key result /\
    (forall z, filter (fun kf => (fst kf =? z)%Z) result
               = filter (fun kf => (fst kf =? z)%Z) sorted
                 ++ filter (fun kf => (fst kf =? z)%Z) l).
Proof.
  induction l as [|[k f] l IH]; intros sorted Hs; cbn [fold_left].
  - cbv zeta. split; [exact Hs|]. intro z. now rewrite app_nil_r.
  - destruct (insert_by_spec k f sorted Hs) as (Hs1 & _ & Hf1).
    destruct (IH _ Hs1) as (Hs2 & Hf2). cbv zeta in *. cbn [fst snd].
    split; [exact Hs2|]. intro z. rewrite Hf2, Hf1, <- app_assoc. cbn [filter fst].
    now destruct (k =? z)%Z.
Qed.

Lemma keyed_spec (key : str -> res Z) (files : list str) :
  (forall f, In f files -> exists z, key f = Ok z) ->
  keyed key files = Ok (map (fun f => (key_of key f, f)) files).
Proof.
  induction files as [|f files IH]; intro H; [reflexivity|].
  cbn [keyed map]. destruct (H f (or_introl eq_refl)) as [z Hz].
  unfold key_of at 1. rewrite Hz. rewrite IH by (intros; apply H; now right).
  reflexivity.
Qed.

(** A sort whose keys are all defined: sorted, and stable. *)
Lemma sorted_by_spec (key : str -> res Z) (files : list str) :
  (forall f, In f files -> exists z, key f = Ok z) ->
  exists sorted,
    sorted_by key files = Ok sorted /\
    StronglySorted (fun a b => (key_of key a <= key_of key b)%Z) sorted /\
    (forall z, filter (fun f => (key_of key f =? z)%Z) sorted
               = filter (fun f => (key_of key f =? z)%Z) files).
Proof.
  intro H. unfold sorted_by. rewrite keyed_spec by exact H.
  eexists. split; [reflexivity|].
  destruct (sort_from_spec (map (fun f => (key_of key f, f)) files) []
              (SSorted_nil _)) as (Hs & Hf).
  cbv zeta in Hs, Hf. fold (sort_by_key (map (fun f => (key_of key f, f)) files)) in Hs, Hf.
  set (s := sort_by_key (map (fun f => (key_of key f, f)) files)) in *.
  assert (forall kf, In kf s -> fst kf = key_of key (snd kf)) as Hkeys.
  { intros kf Hkf.
    assert (In kf (filter (fun x => (fst x =? fst kf)%Z) s)) as Hin
      by (apply filter_In; split; [exact Hkf | apply Z.eqb_refl]).
    rewrite Hf in Hin. cbn [filter app] in Hin. apply filter_In in Hin as [Hin _].
    apply in_map_iff in Hin as [f [<- _]]. reflexivity. }
  split.
  - clear Hf. induction Hs as [|kf s' Hs' IHs Hall]; [constructor|].
    cbn [map]. constructor.
    + apply IHs. intros x Hx. apply Hkeys. now right.
    + rewrite Forall_forall in Hall. apply Forall_forall. intros x Hx.
      apply in_map_iff in Hx as [y [<- Hy]].
      rewrite <- (Hkeys kf (or_introl eq_refl)), <- (Hkeys y (or_intror Hy)).
      now apply Hall.
  - intro z. specialize (Hf z). cbn [filter app] in Hf.
    assert (forall l : list (Z * str),
              (forall kf, In kf l -> fst kf = key_of key (snd kf)) ->
              filter (fun f => (key_of key f =? z)%Z) (map snd l)
              = map snd (filter (fun kf => (fst kf =? z)%Z) l)) as Hmap.
    { induction l as [|x l IHl]; intro Hl; [reflexivity|].
      cbn [map filter]. rewrite <- (Hl x (or_introl eq_refl)).
      rewrite IHl by (intros; apply Hl; now right).
      now destruct (fst x =? z)%Z. }
    rewrite Hmap by exact Hkeys. rewrite Hf.
    rewrite <- Hmap by (intros kf Hkf; apply in_map_iff in Hkf as [f [<- _]]; reflexivity).
    now rewrite map_map, map_id.
Qed.

(** The plan of a merge whose keys are defined on every grouped name. *)
Lemma merge_groups_spec (key : str -> res Z) (out_name : str -> str)
  (groups : list (str * list str)) :
  (forall k files f, In (k, files) groups -> In f files -> exists z, key f = Ok z) ->
  snd (merge_groups key out_name groups) = None /\
  Forall2 (fun group planned =>
             fst planned = out_name (fst group) /\
             StronglySorted (fun a b => (key_of key a <= key_of key b)%Z) (snd planned) /\
             (forall z, filter (fun f => (key_of key f =? z)%Z) (snd planned)
                        = filter (fun f => (key_of key f =? z)%Z) (snd group)))
          groups (fst (merge_groups key out_name groups)).
Proof.
  induction groups as [|[k files] groups IH]; intro H; cbn [merge_groups].
  - split; [reflexivity | constructor].
  - destruct (sorted_by_spec key files) as (sorted & -> & Hs & Hf);
      [intros f Hf; apply (H k files f); [now left | exact Hf]|].
    destruct IH as [IHerr IHplan]; [intros k' fs f Hin; apply (H k' fs f); now right|].
    destruct (merge_groups key out_name groups) as [done err]. cbn [fst snd] in *.
    split; [exact IHerr|]. constructor; [|exact IHplan]. cbn [fst snd]. auto.
Qed.

Lemma Forall2_In_r {A B} (R : A -> B -> Prop) (l : list A) (l' : list B) (y : B) :
  Forall2 R l l' -> In y l' -> exists x, In x l /\ R x y.
Proof.
  induction 1 as [|a b l l' Hab H IH]; intros Hin; [contradiction|].
  destruct Hin as [<-|Hin]; [exists a; split; [now left | exact Hab]|].
  destruct (IH Hin) as [x [Hx Hr]]. exists x. split; [now right | exact Hr].
Qed.

Lemma Forall2_In_l {A B} (R : A -> B -> Prop) (l : list A) (l' : list B) (x : A) :
  Forall2 R l l' -> In x l -> exists y, In y l' /\ R x y.
Proof.
  induction 1 as [|a b l l' Hab H IH]; intros Hin; [contradiction|].
  destruct Hin as [<-|Hin]; [exists b; split; [now left | exact Hab]|].
  destruct (IH Hin) as [y [Hy Hr]]. exists y. split; [now right | exact Hr].
Qed.

Lemma Forall2_map_fst {A B C} (R : A -> B -> Prop) (f : A -> C) (g : B -> C)
  (l : list A) (l' : list B) :
  Forall2 R l l' -> (forall x y, R x y -> g y = f x) -> map g l' = map f l.
Proof.
  intros H Hfg. induction H as [|a b l l' Hab H IH]; [reflexivity|].
  cbn [map]. now rewrite IH, (Hfg a b Hab).
Qed.

Lemma NoDup_map_injective {A B} (f : A -> B) (l : list A) :
  (forall a b, f a = f b -> a = b) -> NoDup l -> NoDup (map f l).
Proof.
  intros Hinj H. induction H as [|x l Hx H IH]; cbn [map]; constructor; [|exact IH].
  intro Hin. apply in_map_iff in Hin as [y [E Hy]]. apply Hinj in E. now subst.
Qed.

Lemma filter_both {A} (p q : A -> bool) (l : list A) :
  filter q (filter p l) = filter (fun x => p x && q x) l.
Proof.
  induction l as [|x l IH]; [reflexivity|]. cbn [filter].
  destruct (p x); cbn [filter andb]; [destruct (q x)|]; now rewrite IH.
Qed.

(** The plan of a script whose sort key is defined on every name its
    pattern matches, and whose output names tell the groups apart. *)
Lemma merge_plan_spec (group_of : str -> option str) (key : str -> res Z)
  (out_name : str -> str) (names : list str) :
  (forall a b, out_name a = out_name b -> a = b) ->
  (forall name k, group_of name = Some k -> exists z, key name = Ok z) ->
  snd (merge_groups key out_name (group_files group_of names)) = None /\
  NoDup (map fst (fst (merge_groups key out_name (group_files group_of names)))) /\
  (forall out files,
     In (out, files) (fst (merge_groups key out_name (group_files group_of names))) ->
     exists k,
       out = out_name k /\ files <> [] /\
       StronglySorted (fun a b => (key_of key a <= key_of key b)%Z) files /\
       (forall z, filter (fun f => (key_of key f =? z)%Z) files
                  = filter (fun n => in_group group_of k n && (key_of key n =? z)%Z) names)) /\
  (forall name k,
     In name names -> group_of name = Some k ->
     exists files,
       In (out_name k, files)
          (fst (merge_groups key out_name (group_files group_of names))) /\
       In name files).
Proof.
  intros Hinj Hkey.
  destruct (group_files_spec group_of names) as (Hnd & Hfiles & Hall).
  destruct (merge_groups_spec key out_name (group_files group_of names)) as [Herr Hplan].
  { intros k files f Hin Hf. destruct (Hfiles k files Hin) as [_ E].
    rewrite E in Hf. apply filter_In in Hf as [_ Hf]. apply in_group_eq in Hf. eauto. }
  split; [exact Herr|]. split; [|split].
  - rewrite (Forall2_map_fst _ (fun g => out_name (fst g)) fst _ _ Hplan)
      by (intros x y (E & _); exact E).
    rewrite <- (map_map fst out_name). apply NoDup_map_injective; [exact Hinj | exact Hnd].
  - intros out files Hin.
    destruct (Forall2_In_r _ _ _ _ Hplan Hin) as ([k fs] & Hg & E & Hs & Hf).
    cbn [fst snd] in *. destruct (Hfiles k fs Hg) as [Hne Efs].
    exists k. split; [exact E|]. split; [|split; [exact Hs|]].
    + destruct fs as [|f fs]; [congruence|]. intro Hnil.
      specialize (Hf (key_of key f)). rewrite Hnil in Hf. cbn [filter] in Hf.
      rewrite Z.eqb_refl in Hf. discriminate.
    + intro z. rewrite Hf, Efs. apply filter_both.
  - intros name k Hname Hk.
    specialize (Hall name k Hname Hk). apply in_map_iff in Hall as [[k' fs] [E Hg]].
    cbn [fst] in E. subst k'.
    destruct (Forall2_In_l _ _ _ _ Hplan Hg) as ([out files] & Hin & E & _ & Hf).
    cbn [fst snd] in *. subst out. exists files. split; [exact Hin|].
    destruct (Hfiles k fs Hg) as [_ Efs].
    assert (In name (filter (fun f => (key_of key f =? key_of key name)%Z) fs)) as H.
    { apply filter_In. split; [|apply Z.eqb_refl].
      rewrite Efs. apply filter_In. split; [exact Hname | now apply in_group_eq]. }
    rewrite <- Hf in H. now apply filter_In in H.
Qed.

(** *** Runs of digits *)

Lemma take_digits_spec (s : str) :
  forallb is_digit (take_digits s) = true /\
  s = take_digits s ++ skipn (length (take_digits s)) s /\
  match skipn (length (take_digits s)) s with
  | [] => True
  | c :: _ => is_digit c = false
  end.
Proof.
  induction s as [|c s (IH1 & IH2 & IH3)]; [repeat split|].
  cbn [take_digits]. destruct (is_digit c) eqn:E.
  - cbn [forallb length skipn app]. split; [now rewrite E, IH1|].
    split; [now f_equal | exact IH3].
  - cbn [forallb length skipn]. rewrite E. repeat split.
Qed.

Lemma take_digits_app (ds rest : str) :
  forallb is_digit ds = true ->
  match rest with [] => True | c :: _ => is_digit c = false end ->
  take_digits (ds ++ rest) = ds.
Proof.
  intros Hds Hrest. induction ds as [|d ds IH]; cbn [app take_digits].
  - destruct rest as [|c rest]; [reflexivity|]. cbn [take_digits]. now rewrite Hrest.
  - cbn [forallb] in Hds. apply andb_true_iff in Hds as [-> Hds]. now rewrite IH.
Qed.

Lemma skipn_app_exact {A} (a b : list A) : skipn (length a) (a ++ b) = b.
Proof. induction a; [reflexivity | assumption]. Qed.

(** What a match of [lit\d+] says about the text. *)
Lemma match_lit_digits_inv (lit s ds : str) :
  match_lit_digits lit s = Some ds ->
  ds <> [] /\ forallb is_digit ds = true /\
  s = lit ++ ds ++ skipn (length lit + length ds) s /\
  match skipn (length lit + length ds) s with
  | [] => True
  | c :: _ => is_digit c = false
  end.
Proof.
  unfold match_lit_digits. destruct (startswith lit s) eqn:E; [|discriminate].
  destruct (startswith_inv _ _ E) as [rest ->]. rewrite skipn_app_exact.
  destruct (take_digits_spec rest) as (H1 & H2 & H3).
  destruct (take_digits rest) as [|d ds'] eqn:T; [discriminate|].
  intro H. injection H as <-.
  rewrite <- Nat.add_comm, <- skipn_skipn, skipn_app_exact.
  split; [discriminate|]. split; [exact H1|]. split; [now f_equal | exact H3].
Qed.

Lemma match_lit_digits_app (lit ds rest : str) :
  ds <> [] -> forallb is_digit ds = true ->
  match rest with [] => True | c :: _ => is_digit c = false end ->
  match_lit_digits lit (lit ++ ds ++ rest) = Some ds.
Proof.
  intros Hne Hds Hrest. unfold match_lit_digits.
  rewrite startswith_app, skipn_app_exact, take_digits_app by assumption.
  destruct ds; [congruence | reflexivity].
Qed.

Lemma digit_not (c x : N) : is_digit x = false -> is_digit c = true -> c <> x.
Proof. intros Hx Hc ->. congruence. Qed.

End MergeProperties.

Section MergeForumProperties.
Import Merge MergeForum.

Lemma search_offset_skip (pre s : str) :
  ~ In 0x2D%N pre -> search_offset (pre ++ s) = search_offset s.
Proof.
  induction pre as [|c pre IH]; intro H; [reflexivity|].
  cbn [app search_offset]. rewrite IH by (intro; apply H; now right).
  assert (match_offset (c :: pre ++ s) = None) as ->; [|reflexivity].
  unfold match_offset, match_lit_digits. change DASH with [0x2D%N].
  cbn [startswith]. destruct (0x2D =? c)%N eqn:E; [|reflexivity].
  apply N.eqb_eq in E. exfalso. apply H. now left.
Qed.

Lemma search_offset_head (s offset : str) :
  match_offset s = Some offset -> search_offset s = Some offset.
Proof. intro H. destruct s; cbn [search_offset]; now rewrite H. Qed.

(** A name the pattern matches, and the number its files are sorted by. *)
Lemma topic_of_inv (name topic_id : str) :
  topic_of name = Some topic_id ->
  exists offset rest,
    name = TOPIC_PREFIX ++ topic_id ++ DASH ++ offset ++ PARSED_SUFFIX ++ rest /\
    topic_id <> [] /\ forallb is_digit topic_id = true /\
    offset <> [] /\ forallb is_digit offset = true /\
    search_offset name = Some offset.
Proof.
  unfold topic_of.
  destruct (match_lit_digits TOPIC_PREFIX name) as [id|] eqn:M1; [|discriminate].
  cbv zeta.
  destruct (match_lit_digits_inv _ _ _ M1) as (Hne1 & Hd1 & E1 & _).
  set (rest1 := skipn (length TOPIC_PREFIX + length id) name) in *.
  destruct (match_lit_digits DASH rest1) as [offset|] eqn:M2; [|discriminate].
  destruct (match_lit_digits_inv _ _ _ M2) as (Hne2 & Hd2 & E2 & _).
  set (rest2 := skipn (length DASH + length offset) rest1) in *.
  destruct (startswith PARSED_SUFFIX rest2) eqn:S; [|discriminate].
  intro H. injection H as <-.
  destruct (startswith_inv _ _ S) as [rest E3].
  exists offset, rest. rewrite E3 in E2. rewrite E2 in E1.
  split; [exact E1|]. repeat (split; [assumption|]).
  rewrite E1.
  replace (TOPIC_PREFIX ++ id ++ DASH ++ offset ++ PARSED_SUFFIX ++ rest)
    with ((TOPIC_PREFIX ++ id) ++ DASH ++ offset ++ PARSED_SUFFIX ++ rest)
    by now rewrite <- app_assoc.
  rewrite search_offset_skip.
  - apply search_offset_head. unfold match_offset.
    rewrite match_lit_digits_app by (try assumption; reflexivity).
    replace (DASH ++ offset ++ PARSED_SUFFIX ++ rest)
      with ((DASH ++ offset) ++ PARSED_SUFFIX ++ rest) by now rewrite <- app_assoc.
    rewrite <- length_app, skipn_app_exact. reflexivity.
  - intro Hin. apply in_app_or in Hin as [Hin|Hin].
    + vm_compute in Hin. intuition discriminate.
    + rewrite forallb_forall in Hd1. specialize (Hd1 _ Hin). vm_compute in Hd1.
      discriminate.
Qed.

Lemma output_file_inj (a b : str) : output_file a = output_file b -> a = b.
Proof.
  unfold output_file. intro H. apply app_inv_head in H. now apply app_inv_tail in H.
Qed.

(** X17. The merge of the parsed sheets never fails in its sort: the offset
    it sorts by is found in every name its pattern matches. No output file
    is written twice; every output [topic_<id>.xlsx] is that of a topic
    with at least one file; its files are exactly the names of the listing
    the pattern matches for that topic, sorted by offset, files of equal
    offset in the order of the listing. *)
Theorem merge_excel_files_plan :
  forall names : list str,
    snd (merge_excel_files names) = None /\
    NoDup (map fst (fst (merge_excel_files names))) /\
    (forall out files,
       In (out, files) (fst (merge_excel_files names)) ->
       exists topic_id,
         out = TOPIC_PREFIX ++ topic_id ++ XLSX_EXT /\ files <> [] /\
         StronglySorted
           (fun a b => (key_of offset_key a <= key_of offset_key b)%Z) files /\
         (forall z, filter (fun f => (key_of offset_key f =? z)%Z) files
                    = filter (fun n => in_group topic_of topic_id n
                                       && (key_of offset_key n =? z)%Z) names)) /\
    (forall name topic_id,
       In name names -> topic_of name = Some topic_id ->
       exists files,
         In (TOPIC_PREFIX ++ topic_id ++ XLSX_EXT, files) (fst (merge_excel_files names)) /\
         In name files).
Proof.
  intro names. unfold merge_excel_files. cbv zeta.
  apply (merge_plan_spec topic_of offset_key output_file names output_file_inj).
  intros name k H. destruct (topic_of_inv _ _ H) as (offset & rest & _ & _ & _ & _ & _ & S).
  unfold offset_key. rewrite S. eauto.
Qed.

End MergeForumProperties.

Section MergeVotesProperties.
Import Merge MergeVotes.

Lemma at_end_inv (s : str) : at_end s = true -> s = [] \/ s = [0x0A%N].
Proof.
  destruct s as [|c [|d s]]; cbn; intro H; [now left | | discriminate].
  apply N.eqb_eq in H. subst. now right.
Qed.

(** What a match of [_page_(\d+)\.xlsx$] says about the text. *)
Lemma match_page_inv (s page : str) :
  match_page s = Some page ->
  page <> [] /\ forallb is_digit page = true /\
  exists e, s = PAGE_MARK ++ page ++ XLSX_EXT ++ e /\ (e = [] \/ e = [0x0A%N]).
Proof.
  unfold match_page.
  destruct (match_lit_digits PAGE_MARK s) as [p|] eqn:M; [|discriminate].
  cbv zeta. destruct (match_lit_digits_inv _ _ _ M) as (Hne & Hd & E & _).
  set (tail := skipn (length PAGE_MARK + length p) s) in *.
  destruct (startswith XLSX_EXT tail) eqn:S; [|discriminate].
  destruct (startswith_inv _ _ S) as [e Ee]. rewrite Ee, skipn_app_exact.
  destruct (at_end e) eqn:A; [|discriminate]. cbn [andb].
  intro H. injection H as <-. repeat split; try assumption.
  exists e. split; [now rewrite E, Ee | now apply at_end_inv].
Qed.

Lemma match_page_app (page e : str) :
  page <> [] -> forallb is_digit page = true -> e = [] \/ e = [0x0A%N] ->
  match_page (PAGE_MARK ++ page ++ XLSX_EXT ++ e) = Some page.
Proof.
  intros Hne Hd He. unfold match_page.
  rewrite match_lit_digits_app by (try assumption; reflexivity). cbv zeta.
  replace (PAGE_MARK ++ page ++ XLSX_EXT ++ e)
    with ((PAGE_MARK ++ page) ++ XLSX_EXT ++ e) by now rewrite <- app_assoc.
  rewrite <- length_app, skipn_app_exact, startswith_app, skipn_app_exact.
  destruct He as [-> | ->]; reflexivity.
Qed.

(** No match starts before a later [_page_]: the pattern runs to the end
    of the text, and holds no second underscore pair. *)
Lemma match_page_shifted (c : N) (pre rest : str) :
  match_page ((c :: pre) ++ PAGE_MARK ++ rest) = None.
Proof.
  destruct (match_page ((c :: pre) ++ PAGE_MARK ++ rest)) as [page|] eqn:M;
    [|reflexivity].
  exfalso. destruct (match_page_inv _ _ M) as (_ & Hd & e & E & He).
  assert (In 0x5F%N (skipn 6 ((c :: pre) ++ PAGE_MARK ++ rest))) as Hin.
  { replace ((c :: pre) ++ PAGE_MARK ++ rest)
      with (((c :: pre) ++ py "_page") ++ 0x5F%N :: rest)
      by (rewrite <- app_assoc; reflexivity).
    rewrite skipn_app.
    replace (6 - length ((c :: pre) ++ py "_page")) with 0
      by (rewrite length_app; cbn [length]; change (length (py "_page")) with 5; lia).
    apply in_or_app. right. now left. }
  rewrite E in Hin. change (skipn 6 (PAGE_MARK ++ page ++ XLSX_EXT ++ e))
    with (page ++ XLSX_EXT ++ e) in Hin.
  apply in_app_or in Hin as [Hin|Hin].
  - rewrite forallb_forall in Hd. specialize (Hd _ Hin). vm_compute in Hd. discriminate.
  - apply in_app_or in Hin as [Hin|Hin]; [vm_compute in Hin; intuition discriminate|].
    destruct He as [-> | ->]; vm_compute in Hin; intuition discriminate.
Qed.

Lemma search_page_suffix (pre s page : str) :
  match_page s = Some page -> search_page (pre ++ s) = Some page.
Proof.
  intro M. destruct (match_page_inv _ _ M) as (_ & _ & e & E & _).
  induction pre as [|c pre IH].
  - destruct s; cbn [app search_page]; now rewrite M.
  - change (search_page ((c :: pre) ++ s))
      with (match match_page ((c :: pre) ++ s) with
            | Some p => Some p
            | None => search_page (pre ++ s)
            end).
    rewrite E at 1. rewrite match_page_shifted. exact IH.
Qed.

Lemma span_until_app (stop : N -> bool) (a : str) (c : N) (b : str) :
  forallb (fun x => negb (stop x)) a = true -> stop c = true ->
  span_until stop (a ++ c :: b) = (a, c :: b).
Proof.
  intros Ha Hc. induction a as [|x a IH]; cbn [app span_until].
  - now rewrite Hc.
  - cbn [forallb] in Ha. apply andb_true_iff in Ha as [Hx Ha].
    apply negb_true_iff in Hx. rewrite Hx, IH by exact Ha. reflexivity.
Qed.

Lemma span_until_stop (stop : N -> bool) (s : str) :
  match snd (span_until stop s) with
  | [] => True
  | c :: _ => stop c = true
  end.
Proof.
  induction s as [|c s IH]; [exact I|]. cbn [span_until].
  destruct (stop c) eqn:E; [exact E|].
  destruct (span_until stop s). exact IH.
Qed.

(** A file the pattern matches, and the number its pages are sorted by. *)
Lemma election_of_inv (filename election_id : str) :
  election_of filename = Some election_id ->
  exists id page e,
    election_id = ELECTION_PREFIX ++ id /\
    filename = election_id ++ PAGE_MARK ++ page ++ XLSX_EXT ++ e /\
    id <> [] /\ forallb is_id_char id = true /\
    page <> [] /\ forallb is_digit page = true /\ (e = [] \/ e = [0x0A%N]) /\
    search_page filename = Some page.
Proof.
  unfold election_of.
  destruct (startswith ELECTION_PREFIX filename) eqn:S; [|discriminate].
  destruct (startswith_inv _ _ S) as [rest0 ->]. rewrite skipn_app_exact.
  destruct (span_until (fun c => negb (is_id_char c)) rest0) as [id rest] eqn:Sp.
  destruct (span_until_spec _ _ _ _ Sp) as [-> Hid].
  destruct id as [|c id]; [discriminate|].
  destruct (match_page rest) as [page|] eqn:M; [|discriminate].
  intro H. injection H as <-.
  destruct (match_page_inv _ _ M) as (Hne & Hd & e & E & He).
  exists (c :: id), page, e.
  split; [reflexivity|]. split; [rewrite E; reflexivity|].
  split; [discriminate|]. split.
  { clear -Hid. revert Hid. generalize (c :: id). intros l H.
    induction l as [|x l IH]; [reflexivity|]. cbn [forallb] in *.
    apply andb_true_iff in H as [Hx Hl]. rewrite negb_involutive in Hx.
    now rewrite Hx, IH. }
  repeat (split; [assumption|]).
  exact (search_page_suffix (ELECTION_PREFIX ++ c :: id) rest page M).
Qed.

Lemma votes_output_file_inj (a b : str) : output_file a = output_file b -> a = b.
Proof. unfold output_file. apply app_inv_tail. Qed.

(** X18. The merge of the vote sheets never fails in its sort: the page
    number it sorts by is found in every name its pattern matches. No
    output file is written twice; every output [<election>.xlsx] is that of
    an election with at least one file; its files are exactly the [.xlsx]
    names of the listing the pattern matches for that election, sorted by
    page number, files of equal number in the order of the listing. *)
Theorem merge_votes_plan :
  forall listing : list str,
    snd (merge_votes listing) = None /\
    NoDup (map fst (fst (merge_votes listing))) /\
    (forall out files,
       In (out, files) (fst (merge_votes listing)) ->
       exists election_id,
         out = election_id ++ XLSX_EXT /\ files <> [] /\
         StronglySorted (fun a b => (key_of page_key a <= key_of page_key b)%Z) files /\
         (forall z, filter (fun f => (key_of page_key f =? z)%Z) files
                    = filter (fun n => in_group election_of election_id n
                                       && (key_of page_key n =? z)%Z)
                             (filter (endswith XLSX_EXT) listing))) /\
    (forall name election_id,
       In name listing -> endswith XLSX_EXT name = true ->
       election_of name = Some election_id ->
       exists files,
         In (election_id ++ XLSX_EXT, files) (fst (merge_votes listing)) /\
         In name files).
Proof.
  intro listing. unfold merge_votes. cbv zeta.
  destruct (merge_plan_spec election_of page_key output_file
              (filter (endswith XLSX_EXT) listing) votes_output_file_inj)
    as (Herr & Hnd & Hplan & Hall).
  { intros name k H.
    destruct (election_of_inv _ _ H) as (id & page & e & _ & _ & _ & _ & _ & _ & _ & S).
    unfold page_key. rewrite S. eauto. }
  split; [exact Herr|]. split; [exact Hnd|]. split; [exact Hplan|].
  intros name election_id Hname Hend H. apply Hall; [|exact H].
  apply filter_In. now split.
Qed.

End MergeVotesProperties.

(** ** File names, from the scrapers to the merges *)

Section FileNameProperties.
Import Merge.

Lemma rsplit_dot_absent (s : str) : ~ In 0x2E%N s -> rsplit_dot s = None.
Proof.
  induction s as [|c s IH]; intro H; [reflexivity|]. cbn [rsplit_dot].
  rewrite IH by (intro; apply H; now right).
  destruct (c =? 0x2E)%N eqn:E; [|reflexivity].
  apply N.eqb_eq in E. exfalso. apply H. now left.
Qed.

(** The last dot of a name that ends in a dot and an extension. *)
Lemma rsplit_dot_app (root ext : str) :
  ~ In 0x2E%N ext -> rsplit_dot (root ++ 0x2E%N :: ext) = Some (root, 0x2E%N :: ext).
Proof.
  intro H. induction root as [|c root IH]; cbn [app rsplit_dot].
  - now rewrite rsplit_dot_absent.
  - now rewrite IH.
Qed.

Lemma rsplit_dot_xml (root : str) : rsplit_dot (root ++ XML_EXT) = Some (root, XML_EXT).
Proof.
  unfold XML_EXT. apply rsplit_dot_app. cbn [In]. intuition discriminate.
Qed.

Lemma endswith_app (a p : str) : endswith p (a ++ p) = true.
Proof. unfold endswith. rewrite rev_app_distr. apply startswith_app. Qed.

Lemma splitext_root_xml (root : str) :
  forallb (N.eqb 0x2E) root = false -> splitext_root (root ++ XML_EXT) = root.
Proof. intro H. unfold splitext_root. now rewrite rsplit_dot_xml, H. Qed.

Lemma path_stem_xml (root : str) : root <> [] -> path_stem (root ++ XML_EXT) = root.
Proof.
  intro H. unfold path_stem. rewrite rsplit_dot_xml.
  destruct root; [congruence | reflexivity].
Qed.

(** The names the two scrapers give their pages. *)
Lemma forum_page_filename_eq (d : Forum.page_data) :
  Forum.page_filename d
  = TOPIC_PREFIX ++ Forum.format_opt (Forum.pd_id d) ++ DASH
    ++ Forum.format_opt (Forum.pd_start d) ++ XML_EXT.
Proof. reflexivity. Qed.

Lemma helios_page_filename_eq (d : Helios.page_data) :
  Helios.page_filename d
  = ELECTION_PREFIX ++ Helios.election_id d ++ PAGE_MARK ++ Helios.page d ++ XML_EXT.
Proof. reflexivity. Qed.

(** *** From the forum scraper to the merge of the parsed sheets *)

(** Two runs of digits that end at the same character are the same run. *)
Lemma digits_run_unique (a b : str) (c : N) (r r' : str) :
  forallb is_digit a = true -> forallb is_digit b = true -> is_digit c = false ->
  a ++ c :: r = b ++ c :: r' -> a = b.
Proof.
  intros Ha Hb Hc. revert b Hb.
  induction a as [|x a IH]; intros [|y b] Hb E; cbn [app forallb] in *.
  - reflexivity.
  - injection E as E _. subst y. apply andb_true_iff in Hb as [Hb _]. congruence.
  - injection E as E _. subst x. apply andb_true_iff in Ha as [Ha _]. congruence.
  - injection E as -> E. apply andb_true_iff in Ha as [_ Ha].
    apply andb_true_iff in Hb as [_ Hb]. f_equal. now apply IH.
Qed.

Lemma not_digit_dash : is_digit 0x2D = false.
Proof. vm_compute. reflexivity. Qed.

Lemma not_digit_underscore : is_digit 0x5F = false.
Proof. vm_compute. reflexivity. Qed.

Lemma not_digit_dot : is_digit 0x2E = false.
Proof. vm_compute. reflexivity. Qed.

Lemma forum_name_matches (topic_id offset rest : str) :
  topic_id <> [] -> forallb is_digit topic_id = true ->
  offset <> [] -> forallb is_digit offset = true ->
  MergeForum.topic_of (TOPIC_PREFIX ++ topic_id ++ DASH ++ offset ++ PARSED_SUFFIX ++ rest)
  = Some topic_id /\
  MergeForum.offset_key (TOPIC_PREFIX ++ topic_id ++ DASH ++ offset ++ PARSED_SUFFIX ++ rest)
  = Ok (int_of_digits offset).
Proof.
  intros Hne1 Hd1 Hne2 Hd2.
  assert (MergeForum.topic_of
            (TOPIC_PREFIX ++ topic_id ++ DASH ++ offset ++ PARSED_SUFFIX ++ rest)
          = Some topic_id) as Htopic.
  { unfold MergeForum.topic_of.
    rewrite match_lit_digits_app by (try assumption; exact not_digit_dash). cbv zeta.
    rewrite <- length_app, (app_assoc TOPIC_PREFIX), skipn_app_exact.
    rewrite match_lit_digits_app by (try assumption; exact not_digit_underscore).
    rewrite <- length_app, (app_assoc DASH), skipn_app_exact.
    now rewrite startswith_app. }
  split; [exact Htopic|].
  destruct (topic_of_inv _ _ Htopic) as (offset' & rest' & E & _ & _ & _ & Hd' & S).
  unfold MergeForum.offset_key. rewrite S. do 2 f_equal.
  apply app_inv_head in E. apply app_inv_head in E. apply app_inv_head in E.
  symmetry.
  exact (digits_run_unique offset offset' 0x5F%N _ _ Hd2 Hd' not_digit_underscore E).
Qed.

Lemma starts_with_t (rest : str) : forallb (N.eqb 0x2E) (TOPIC_PREFIX ++ rest) = false.
Proof. reflexivity. Qed.

(** X19. A page the forum scraper saved for a topic and an offset that are
    numbers goes through the chain under one name: the parser keeps the
    file, reads the topic back from its name as the forum id, and writes
    [topic_<id>-<offset>_parsed.xlsx] when the page has a post; the merge
    matches that name under the same topic and sorts it by the offset. *)
Theorem forum_file_names :
  forall (d : Forum.page_data) (topic_id start : str) (soup : node),
    Forum.pd_id d = Some topic_id -> Forum.pd_start d = Some start ->
    topic_id <> [] -> forallb is_digit topic_id = true ->
    start <> [] -> forallb is_digit start = true ->
    ForumXMLParser.xml_files [Forum.page_filename d] = [Forum.page_filename d] /\
    ForumXMLParser.extract_forum_id_from_filename (Forum.page_filename d) = topic_id /\
    ForumXMLParser.process_xml_file (Forum.page_filename d) soup
    = match ForumXMLParser.create_xlsx_from_posts
              (ForumXMLParser.parse_forum_xml soup topic_id) with
      | Some written =>
          Some (TOPIC_PREFIX ++ topic_id ++ DASH ++ start ++ PARSED_SUFFIX, written)
      | None => None
      end /\
    MergeForum.topic_of (TOPIC_PREFIX ++ topic_id ++ DASH ++ start ++ PARSED_SUFFIX)
    = Some topic_id /\
    MergeForum.offset_key (TOPIC_PREFIX ++ topic_id ++ DASH ++ start ++ PARSED_SUFFIX)
    = Ok (int_of_digits start).
Proof.
  intros d topic_id start soup Hid Hstart Hne1 Hd1 Hne2 Hd2.
  rewrite forum_page_filename_eq, Hid, Hstart. cbn [Forum.format_opt].
  assert (ForumXMLParser.extract_forum_id_from_filename
            (TOPIC_PREFIX ++ topic_id ++ DASH ++ start ++ XML_EXT) = topic_id) as Hforum.
  { unfold ForumXMLParser.extract_forum_id_from_filename.
    assert (match_lit_digits TOPIC_PREFIX
              (TOPIC_PREFIX ++ topic_id ++ DASH ++ start ++ XML_EXT) = Some topic_id) as M
      by (apply match_lit_digits_app; try assumption; exact not_digit_dash).
    unfold TOPIC_PREFIX at 2. unfold TOPIC_PREFIX at 2 in M. cbn [app] in *.
    cbn [re_search_lit_digits]. now rewrite M. }
  assert (TOPIC_PREFIX ++ topic_id ++ DASH ++ start ++ XML_EXT
          = (TOPIC_PREFIX ++ topic_id ++ DASH ++ start) ++ XML_EXT) as Hname
    by now rewrite <- !app_assoc.
  split; [|split; [exact Hforum|split]].
  - unfold ForumXMLParser.xml_files. cbn [filter].
    rewrite Hname at 1. rewrite str_lower_app.
    assert (str_lower XML_EXT = XML_EXT) as -> by reflexivity.
    now rewrite endswith_app.
  - unfold ForumXMLParser.process_xml_file. cbv zeta. rewrite Hforum.
    rewrite Hname, splitext_root_xml by apply starts_with_t.
    rewrite <- !app_assoc.
    destruct (ForumXMLParser.parse_forum_xml soup topic_id); reflexivity.
  - rewrite <- (app_nil_r PARSED_SUFFIX). now apply forum_name_matches.
Qed.

(** The page of topic 47593 at offset 20. *)
Lemma forum_file_names_witness :
  ForumXMLParser.xml_files [Forum.page_filename Samples.saved_topic_page]
  = [Forum.page_filename Samples.saved_topic_page] /\
  ForumXMLParser.extract_forum_id_from_filename
    (Forum.page_filename Samples.saved_topic_page) = Samples.topic_47593 /\
  ForumXMLParser.process_xml_file (Forum.page_filename Samples.saved_topic_page)
    Samples.forum_page
  = match ForumXMLParser.create_xlsx_from_posts
            (ForumXMLParser.parse_forum_xml Samples.forum_page Samples.topic_47593) with
    | Some written =>
        Some (TOPIC_PREFIX ++ Samples.topic_47593 ++ DASH ++ Samples.offset_20
              ++ PARSED_SUFFIX, written)
    | None => None
    end /\
  MergeForum.topic_of
    (TOPIC_PREFIX ++ Samples.topic_47593 ++ DASH ++ Samples.offset_20 ++ PARSED_SUFFIX)
  = Some Samples.topic_47593 /\
  MergeForum.offset_key
    (TOPIC_PREFIX ++ Samples.topic_47593 ++ DASH ++ Samples.offset_20 ++ PARSED_SUFFIX)
  = Ok (int_of_digits Samples.offset_20).
Proof.
  apply (forum_file_names Samples.saved_topic_page Samples.topic_47593 Samples.offset_20
           Samples.forum_page); try reflexivity; discriminate.
Defined.





(** *** From the election scraper to the merge of the vote sheets *)

Lemma forallb_false_split (P : N -> bool) (s : str) :
  forallb P s = false ->
  exists a x b, s = a ++ x :: b /\ forallb P a = true /\ P x = false.
Proof.
  induction s as [|c s IH]; [discriminate|]. cbn [forallb].
  destruct (P c) eqn:E.
  - cbn [andb]. intro H. destruct (IH H) as (a & x & b & -> & Ha & Hx).
    exists (c :: a), x, b. cbn [forallb]. rewrite E. now repeat split.
  - intros _. exists [], c, s. now repeat split.
Qed.

Lemma forallb_not_stop (a : str) :
  forallb MergeVotes.is_id_char a = true ->
  forallb (fun x => negb (negb (MergeVotes.is_id_char x))) a = true.
Proof.
  induction a as [|x a IH]; [reflexivity|]. cbn [forallb]. intro H.
  apply andb_true_iff in H as [Hx Ha]. now rewrite Hx, IH.
Qed.

Lemma match_page_plain (page : str) :
  page <> [] -> forallb is_digit page = true ->
  MergeVotes.match_page (PAGE_MARK ++ page ++ XLSX_EXT) = Some page.
Proof.
  intros Hne Hd. rewrite <- (app_nil_r XLSX_EXT) at 1.
  apply match_page_app; [exact Hne | exact Hd | now left].
Qed.

(** The names the pattern of the vote merge accepts among those the
    converter writes. *)
Lemma election_of_page_name (election_id page : str) :
  MergeVotes.election_of (ELECTION_PREFIX ++ election_id ++ PAGE_MARK ++ page ++ XLSX_EXT)
  = if MergeVotes.well_named election_id page then Some (ELECTION_PREFIX ++ election_id) else None.
Proof.
  unfold MergeVotes.election_of, MergeVotes.well_named.
  rewrite startswith_app, skipn_app_exact.
  destruct (forallb MergeVotes.is_id_char election_id) eqn:Hid.
  - (* the whole identifier is the run of the class *)
    assert (span_until (fun c => negb (MergeVotes.is_id_char c))
              (election_id ++ PAGE_MARK ++ page ++ XLSX_EXT)
            = (election_id, PAGE_MARK ++ page ++ XLSX_EXT)) as ->
      by (unfold PAGE_MARK at 1; cbn [app]; apply span_until_app;
          [now apply forallb_not_stop | reflexivity]).
    destruct election_id as [|c id]; [reflexivity|]. cbn [negb andb].
    destruct (match page with [] => false | _ => true end && forallb is_digit page)
      eqn:Hpage.
    + apply andb_true_iff in Hpage as [Hne Hd].
      rewrite match_page_plain by (try exact Hd; now destruct page).
      destruct page; [discriminate | reflexivity].
    + destruct (MergeVotes.match_page (PAGE_MARK ++ page ++ XLSX_EXT)) as [p|] eqn:M;
        [|now destruct page].
      exfalso. destruct (match_page_inv _ _ M) as (Hne & Hd & e & E & He).
      apply app_inv_head in E.
      assert (page = p) as ->.
      { destruct He as [-> | ->].
        - rewrite app_nil_r in E. now apply app_inv_tail in E.
        - exfalso. unfold XLSX_EXT in E.
          change (page ++ [46; 120; 108; 115; 120]%N)
            with (page ++ [46; 120; 108; 115]%N ++ [120%N]) in E.
          rewrite !app_assoc in E. apply app_inj_tail in E as [_ E]. discriminate. }
      rewrite Hd in Hpage. destruct p; [congruence | discriminate].
  - (* a character outside the class ends the run before [_page_] *)
    destruct (forallb_false_split _ _ Hid) as (a & x & b & -> & Ha & Hx).
    rewrite <- app_assoc. cbn [app].
    rewrite span_until_app; [|now apply forallb_not_stop | now rewrite Hx].
    assert (MergeVotes.match_page (x :: b ++ PAGE_MARK ++ page ++ XLSX_EXT) = None) as ->
      by apply (match_page_shifted x b).
    rewrite andb_false_r. cbn [andb]. now destruct a.
Qed.

(** X21. A page the election scraper saved becomes
    [election_<id>_page_<page>.xlsx] in the converter. The merge accepts
    that name exactly when the election identifier is a non-empty run of
    letters, digits and dashes and the page is a number; it then groups it
    under [election_<id>] and sorts it by the page. *)
Theorem votes_file_names :
  forall d : Helios.page_data,
    out_file_name (Helios.page_filename d)
    = ELECTION_PREFIX ++ Helios.election_id d ++ PAGE_MARK ++ Helios.page d ++ XLSX_EXT /\
    endswith XLSX_EXT (out_file_name (Helios.page_filename d)) = true /\
    MergeVotes.election_of (out_file_name (Helios.page_filename d))
    = (if MergeVotes.well_named (Helios.election_id d) (Helios.page d)
       then Some (ELECTION_PREFIX ++ Helios.election_id d)
       else None) /\
    (MergeVotes.well_named (Helios.election_id d) (Helios.page d) = true ->
     MergeVotes.page_key (out_file_name (Helios.page_filename d))
     = Ok (int_of_digits (Helios.page d))).
Proof.
  intro d.
  assert (out_file_name (Helios.page_filename d)
          = ELECTION_PREFIX ++ Helios.election_id d ++ PAGE_MARK ++ Helios.page d
            ++ XLSX_EXT) as Hname.
  { unfold out_file_name. rewrite helios_page_filename_eq.
    assert (ELECTION_PREFIX ++ Helios.election_id d ++ PAGE_MARK ++ Helios.page d ++ XML_EXT
            = (ELECTION_PREFIX ++ Helios.election_id d ++ PAGE_MARK ++ Helios.page d)
              ++ XML_EXT) as -> by now rewrite <- !app_assoc.
    rewrite path_stem_xml by discriminate. now rewrite <- !app_assoc. }
  rewrite Hname. split; [reflexivity|]. split; [|split].
  - rewrite !app_assoc. apply endswith_app.
  - apply election_of_page_name.
  - intro Hwell. unfold MergeVotes.well_named in Hwell. repeat rewrite andb_true_iff in Hwell.
    destruct Hwell as [[[_ _] Hne] Hd].
    unfold MergeVotes.page_key.
    rewrite (app_assoc ELECTION_PREFIX).
    rewrite (search_page_suffix _ (PAGE_MARK ++ Helios.page d ++ XLSX_EXT) (Helios.page d));
      [reflexivity|].
    apply match_page_plain; [now destruct (Helios.page d) | exact Hd].
Qed.

End FileNameProperties.

(** ** The page number of a saved page *)

Section PageNumberProperties.
Import Helios.










End PageNumberProperties.

(** ** The numeric fields of a post record *)

Section NumericFieldProperties.
Import ForumXMLParser.

Lemma re_search_digits (lit s ds : str) :
  re_search_lit_digits lit s = Some ds -> ds <> [] /\ forallb is_digit ds = true.
Proof.
  induction s as [|c s IH]; cbn [re_search_lit_digits].
  - destruct (match_lit_digits lit []) as [ds'|] eqn:M; [|discriminate].
    intro H. injection H as <-. destruct (match_lit_digits_inv _ _ _ M) as (A & B & _).
    now split.
  - destruct (match_lit_digits lit (c :: s)) as [ds'|] eqn:M; [|exact IH].
    intro H. injection H as <-. destruct (match_lit_digits_inv _ _ _ M) as (A & B & _).
    now split.
Qed.

Lemma first_number_digits (s : str) : forallb is_digit (first_number s) = true.
Proof.
  unfold first_number. destruct (re_search_lit_digits [] s) as [ds|] eqn:E; [|reflexivity].
  now apply re_search_digits in E.
Qed.

Lemma int_of_digits_nonneg (s : str) : (0 <= int_of_digits s)%Z.
Proof.
  unfold int_of_digits.
  assert (forall acc : Z, (0 <= acc)%Z ->
            (0 <= fold_left (fun (acc : Z) c => match digit_value c with
                                                | Some d => (acc * 10 + Z.of_N d)%Z
                                                | None => acc
                                                end) s acc)%Z) as H.
  { induction s as [|c s IH]; intros acc Hacc; [exact Hacc|].
    cbn [fold_left]. apply IH. destruct (digit_value c); lia. }
  apply H. lia.
Qed.

Lemma numeric_counter_set (k k' : String.string) (v : value) (d : dict) :
  k <> k' -> numeric_counter k d -> numeric_counter k (dict_set k' v d).
Proof. intros Hne H x. rewrite dict_get_set_other by exact Hne. apply H. Qed.

Lemma numeric_counter_labelled (k key : String.string) (label : str) (dd : option node)
  (d : dict) :
  k <> key -> numeric_counter k d -> numeric_counter k (labelled_field key label dd d).
Proof. intros Hne H x. rewrite labelled_field_other by exact Hne. apply H. Qed.

Lemma numeric_counter_field (k key : String.string) (dd : option node) (d : dict) :
  numeric_counter k d -> numeric_counter k (counter_field key dd d).
Proof.
  intros H. unfold counter_field. destruct dd as [dd|]; [|exact H].
  destruct (find (py "a") AnyAttrs dd) as [thanks_link|]; [|exact H].
  intro x. destruct (String.eqb key k) eqn:E.
  - apply String.eqb_eq in E. subst key. rewrite dict_get_set_same.
    intro Hx. injection Hx as <-. eexists. split; [reflexivity | apply first_number_digits].
  - apply String.eqb_neq in E. rewrite dict_get_set_other by congruence. apply H.
Qed.

Lemma extract_user_info_counters (post_div : node) (k : String.string) :
  k = "thanks_given"%string \/ k = "thanks_received"%string ->
  numeric_counter k (extract_user_info post_div).
Proof.
  intro Hk. unfold extract_user_info.
  repeat first
    [ apply numeric_counter_field
    | apply numeric_counter_labelled; [destruct Hk as [-> | ->]; discriminate|]
    | apply numeric_counter_set; [destruct Hk as [-> | ->]; discriminate|]
    | match goal with
      | |- numeric_counter _ (match ?x with Some _ => _ | None => _ end) => destruct x
      | |- numeric_counter _ [] => intros ? H; discriminate H
      end ].
Qed.

Lemma extract_post_content_count (post_div : node) (v : value) :
  dict_get "thanks_count" (extract_post_content post_div) = Some v ->
  exists n, v = VInt n /\ (0 <= n)%Z.
Proof.
  destruct (find (py "div") (ClassIn [py "postbody"]) post_div) as [pb|] eqn:Hbody.
  - destruct (post_content_shape post_div pb Hbody) as [d [-> [Hc Hu]]].
    rewrite !dict_get_set_default. cbn [String.eqb Ascii.eqb Bool.eqb].
    pose proof (set_thanks_fresh pb d Hc Hu) as H.
    destruct (thanks_line pb) as [[thanks_dl dt_elem]|].
    + destruct (find (py "dd") AnyAttrs thanks_dl) as [dd_elem|]; destruct H as [_ ->].
      * intro Hv. injection Hv as <-. eexists. split; [reflexivity|].
        destruct (re_search_lit_digits CELKEM (get_text dt_elem));
          [apply int_of_digits_nonneg | lia].
      * destruct (re_search_lit_digits CELKEM (get_text dt_elem));
          intro Hv; injection Hv as <-; eexists; (split; [reflexivity|]);
          [apply int_of_digits_nonneg | lia].
    + destruct H as [_ ->]. intro Hv. injection Hv as <-. exists 0%Z. split; [reflexivity | lia].
  - unfold extract_post_content. rewrite Hbody. cbv zeta.
    rewrite dict_get_set_other by discriminate. discriminate.
Qed.

(** X24. In the record of a post, the counters [thanks_given] and
    [thanks_received], where they are set, are runs of digits (possibly
    empty), and [thanks_count], where it is set, is an integer that is not
    negative. *)
Theorem numeric_fields :
  forall (forum_id : str) (post_div : node),
    numeric_counter "thanks_given" (post_record forum_id post_div) /\
    numeric_counter "thanks_received" (post_record forum_id post_div) /\
    (forall v, dict_get "thanks_count" (post_record forum_id post_div) = Some v ->
               exists n, v = VInt n /\ (0 <= n)%Z).
Proof.
  intros forum_id post_div. split; [|split].
  - intro v. rewrite post_record_user_key by (cbv [In user_keys]; tauto).
    apply extract_user_info_counters. now left.
  - intro v. rewrite post_record_user_key by (cbv [In user_keys]; tauto).
    apply extract_user_info_counters. now right.
  - intro v. rewrite post_record_post_key by (cbv [In post_keys]; tauto).
    apply extract_post_content_count.
Qed.

End NumericFieldProperties.
